(** * Kernel-sparsity modifier and scheduled modifier manager

    A shallow embedding of
    - [neuralmagicML/pytorch/recal/kernel/modifier.py] ([GradualKSModifier]
      and [_log_sparsity]), and
    - [sparseml/keras/optim/manager.py] ([ScheduledModifierManager]),
    followed by the properties of their lifecycle hooks.

    Python floats are IEEE binary64 values, embedded as Rocq's primitive
    [float]; Python ints are [Z].  An exception aborts a call but leaves the
    mutations done before it in place, so stateful methods return an
    [outcome] that carries the object in both cases. *)

From Stdlib Require Import ZArith List String Bool Lia Floats.
From Stdlib Require Import Sorted Permutation.
Import ListNotations.

Set Implicit Arguments.

(** ** Python values, exceptions and numeric built-ins *)

Module Py.

Inductive value : Type :=
| VNone
| VBool (b : bool)
| VInt (z : Z)
| VFloat (f : float)
| VStr (s : string).

Inductive exn : Type :=
| ValueError (msg : string)
| TypeError (msg : string)
| RuntimeError (msg : string)
| OverflowError (msg : string).

(** A call that either returns a value or raises. *)
Inductive result (A : Type) : Type :=
| Ok (a : A)
| Err (e : exn).
Arguments Err {A} e.

(** A method call on an object of type [S]: the object after the call,
    and the exception when the call raised. *)
Inductive outcome (S : Type) : Type :=
| Returned (s : S)
| Raised (e : exn) (s : S).

Definition state_of {S} (o : outcome S) : S :=
  match o with Returned s => s | Raised _ s => s end.

Definition returned {S} (o : outcome S) : bool :=
  match o with Returned _ => true | Raised _ _ => false end.

Definition raised {S} (o : outcome S) : option exn :=
  match o with Returned _ => None | Raised e _ => Some e end.

Definition bind {A B} (r : result A) (k : A -> result B) : result B :=
  match r with Ok a => k a | Err e => Err e end.

(** [isinstance(v, float)]: [bool] and [int] are not [float]. *)
Definition isinstance_float (v : value) : bool :=
  match v with VFloat _ => true | _ => false end.

(** [a != b] on the values an optional float attribute takes:
    [None != None] is false, [None] differs from every float, and two
    floats differ by IEEE comparison (so NaN differs from itself). *)
Definition ne_opt_float (a b : option float) : bool :=
  match a, b with
  | None, None => false
  | Some x, Some y => negb (PrimFloat.eqb x y)
  | _, _ => true
  end.

(** Nearest integer of [m * 2^e], ties to even. *)
Definition round_half_even (m e : Z) : Z :=
  if (0 <=? e)%Z then (m * 2 ^ e)%Z
  else
    let d := (2 ^ (- e))%Z in
    let q := (m / d)%Z in
    let r := (m mod d)%Z in
    match (2 * r ?= d)%Z with
    | Lt => q
    | Gt => (q + 1)%Z
    | Eq => if Z.even q then q else (q + 1)%Z
    end.

(** [round(x)] with one float argument: an int, ties to even; NaN and
    the infinities raise. *)
Definition round (x : float) : result Z :=
  match Prim2SF x with
  | S754_nan => Err (ValueError "cannot convert float NaN to integer")
  | S754_infinity _ =>
      Err (OverflowError "cannot convert float infinity to integer")
  | S754_zero _ => Ok 0%Z
  | S754_finite s m e =>
      let n := round_half_even (Zpos m) e in
      Ok (if s then (- n)%Z else n)
  end.

(** Conversion of an int operand in mixed int/float arithmetic: the
    nearest float, ties to even; too large an int raises. *)
Definition float_of_int (z : Z) : result float :=
  match binary_normalize prec emax z 0 false with
  | S754_infinity _ => Err (OverflowError "int too large to convert to float")
  | sf => Ok (SF2Prim sf)
  end.

(** [x * n] for a float [x] and an int [n]. *)
Definition mul_float_int (x : float) (n : Z) : result float :=
  bind (float_of_int n) (fun y => Ok (PrimFloat.mul x y)).

(** [x] is a number: [x == x], which only NaN fails. *)
Definition is_number (x : float) : bool := PrimFloat.eqb x x.

(** The rank of a float in the order of [<]: the class (negative
    infinity, negative, zero, positive, positive infinity), then the
    exponent, then the mantissa, the last two negated below zero. *)
Definition sf_key (f : spec_float) : Z * (Z * Z) :=
  match f with
  | S754_nan => (0, (0, 0))
  | S754_zero _ => (0, (0, 0))
  | S754_infinity true => (-2, (0, 0))
  | S754_infinity false => (2, (0, 0))
  | S754_finite true m e => (-1, (- e, - Zpos m))
  | S754_finite false m e => (1, (e, Zpos m))
  end%Z.

Definition key_lt (a b : Z * (Z * Z)) : Prop :=
  (fst a < fst b
   \/ (fst a = fst b
       /\ (fst (snd a) < fst (snd b)
           \/ (fst (snd a) = fst (snd b) /\ snd (snd a) < snd (snd b)))))%Z.

End Py.

Import Py.

Notation "x <- r ;; k" := (Py.bind r (fun x => k))
  (at level 61, r at next level, right associativity).

(** ** The pruning modifier: [neuralmagicML/pytorch/recal/kernel/modifier.py] *)

Module KS.

(** *** Data the modifier handles *)

(** A [Union[str, List[str]]] argument ([layers], [allowed_loggers]). *)
Inductive str_or_list : Type :=
| Str (s : string)
| StrList (l : list string).

Definition Tensor : Type := list float.

(** A layer as the modifier sees it: an object ([layer_id] stands for its
    identity) with [named_parameters()]. *)
Record Layer : Type := {
  layer_id : nat;
  named_parameters : list (string * Tensor)
}.

(** The calls a [ModuleParamKSMask] receives from the modifier. *)
Inductive mask_call : Type :=
| SetEnabled (b : bool)
| SetParamMaskFromSparsity (s : float)
| Apply.

(** Modelled from the spec: the class [ModuleParamKSMask] (section 4.2),
    whose source is not part of the repository files at hand.  A mask
    belongs to one (layer, parameter) pair, has an [enabled] flag that
    the setter toggles without clearing the stored mask, and a mask
    buffer computed from a target sparsity.  [received] is the history
    of the calls made on the object, oldest first. *)
Record ModuleParamKSMask : Type := {
  mask_layer : Layer;
  mask_param : string;
  enabled : bool;
  mask_sparsity : option float;
  received : list mask_call
}.

(** [ModuleParamKSMask(layer, param)]: nothing received yet. *)
Definition mask_new (layer : Layer) (param : string) : ModuleParamKSMask :=
  {| mask_layer := layer; mask_param := param; enabled := false;
     mask_sparsity := None; received := [] |}.

(** [mask.enabled = b]. *)
Definition set_enabled (b : bool) (k : ModuleParamKSMask) : ModuleParamKSMask :=
  {| mask_layer := mask_layer k; mask_param := mask_param k; enabled := b;
     mask_sparsity := mask_sparsity k;
     received := received k ++ [SetEnabled b] |}.

(** [mask.set_param_mask_from_sparsity(s)]. *)
Definition set_param_mask_from_sparsity (s : float) (k : ModuleParamKSMask)
  : ModuleParamKSMask :=
  {| mask_layer := mask_layer k; mask_param := mask_param k;
     enabled := enabled k; mask_sparsity := Some s;
     received := received k ++ [SetParamMaskFromSparsity s] |}.

(** [mask.apply()]. *)
Definition apply (k : ModuleParamKSMask) : ModuleParamKSMask :=
  {| mask_layer := mask_layer k; mask_param := mask_param k;
     enabled := enabled k; mask_sparsity := mask_sparsity k;
     received := received k ++ [Apply] |}.

(** [ModuleKSAnalyzer(layer, name, param_name)]. *)
Record ModuleKSAnalyzer : Type := {
  an_layer : Layer;
  an_name : string;
  an_param : string
}.

(** One [logger.log_scalar(tag, value, step)] call. *)
Record log_scalar : Type := {
  ev_logger : string;
  ev_tag : string;
  ev_value : float;
  ev_step : Z
}.

(** The token of the docstrings: [layers: __ALL__]. *)
Definition ALL_TOKEN : string := "__ALL__".

(** Modelled from the spec: the constant [INTERPOLATION_FUNCS] of
    [neuralmagicML.pytorch.utils], the three recognized curves. *)
Definition INTERPOLATION_FUNCS : list string :=
  ["linear"; "cubic"; "inverse_cubic"]%string.

(** *** What the modifier imports

    The base class [ScheduledUpdateModifier], the helpers of
    [neuralmagicML.pytorch.utils] and the members of the analyzer and
    logger objects are used by the code below and defined elsewhere;
    they are the fields of this interface. *)
Class Env : Type := {
  (** [torch.nn.Module] and [torch.optim.Optimizer] *)
  Module_ : Type;
  Optimizer : Type;
  (** [neuralmagicML.pytorch.utils] *)
  get_terminal_layers : Module_ -> list (string * Layer);
  get_layer : string -> Module_ -> result Layer;
  convert_to_bool : value -> bool;
  validate_str_list : str_or_list -> string -> result str_or_list;
  interpolate :
    float -> float -> float -> float -> float -> string -> result float;
  (** the part of the object that [ScheduledUpdateModifier] owns *)
  base : Type;
  super_init : float -> float -> float -> result base;
  start_epoch : base -> float;
  end_epoch : base -> float;
  loggers : base -> list string;
  prop_set_check : base -> string -> option exn;
  start_pending : base -> float -> Z -> bool;
  end_pending : base -> float -> Z -> bool;
  super_initialize : base -> Module_ -> Optimizer -> outcome base;
  super_update : base -> Module_ -> Optimizer -> float -> Z -> outcome base;
  super_log_update :
    base -> Module_ -> Optimizer -> float -> Z -> outcome base;
  super_optimizer_post_step :
    base -> Module_ -> Optimizer -> float -> Z -> outcome base;
  (** [analyzer.tag] and [analyzer.param_sparsity.item()] *)
  tag : ModuleKSAnalyzer -> string;
  param_sparsity_item : ModuleKSAnalyzer -> float
}.

Section Modifier.

Context {E : Env}.

(** The object: the base-class part and the attributes [__init__]
    creates.  The two sparsities are stored once [__init__] has
    checked that they are floats. *)
Record GradualKSModifier : Type := {
  super : base;
  _param : string;
  _layers : str_or_list;
  _init_sparsity : float;
  _final_sparsity : float;
  _leave_enabled : bool;
  _inter_func : string;
  _param_strict : bool;
  _module_masks : list ModuleParamKSMask;
  _allowed_loggers : str_or_list;
  _applied_sparsity : option float;
  _last_logged_sparsity : option float;
  _analyzers : option (list ModuleKSAnalyzer)
}.

(** The arguments of [__init__]; the sparsities are any Python value
    because the constructor tests their type. *)
Record init_args : Type := {
  param : string;
  layers : str_or_list;
  init_sparsity : value;
  final_sparsity : value;
  arg_start_epoch : float;
  arg_end_epoch : float;
  update_frequency : float;
  leave_enabled : value;
  inter_func : string;
  param_strict : value;
  allowed_loggers : str_or_list
}.

Definition out_of_unit_range (x : float) : bool :=
  PrimFloat.ltb x 0 || PrimFloat.ltb 1 x.

Definition in_list (s : string) (l : list string) : bool :=
  existsb (String.eqb s) l.

(** [GradualKSModifier.__init__].  The source assigns the attributes
    first and validates afterwards; an exception leaves no object
    behind, so the object is built where the checks have passed. *)
Definition __init__ (a : init_args) : result GradualKSModifier :=
  b <- super_init (arg_start_epoch a) (arg_end_epoch a) (update_frequency a) ;;
  ls <- validate_str_list (layers a) "GradualKSModifier for layers" ;;
  let leave := convert_to_bool (leave_enabled a) in
  let strict := convert_to_bool (param_strict a) in
  if PrimFloat.ltb (arg_start_epoch a) 0 then
    Err (ValueError
      "start_epoch must be greater than or equal to 0 for GradualKSModifier")
  else if PrimFloat.ltb (arg_end_epoch a) (arg_start_epoch a) then
    Err (ValueError
      "end_epoch must be greater than start_epoch for GradualKSModifier")
  else
    match init_sparsity a with
    | VFloat i =>
      if out_of_unit_range i then
        Err (ValueError
          "init_sparsity value must be in the range [0.0, 1.0], given {} for GradualKSModifier")
      else
        match final_sparsity a with
        | VFloat f =>
          if out_of_unit_range f then
            Err (ValueError
              "init_sparsity value must be in the range [0.0, 1.0], given {} for GradualKSModifier")
          else if negb (in_list (inter_func a) INTERPOLATION_FUNCS) then
            Err (ValueError
              "{} is not a supported inter_func in layers_settings, available are {} for GradualKSModifier")
          else
            Ok {| super := b;
                  _param := param a;
                  _layers := ls;
                  _init_sparsity := i;
                  _final_sparsity := f;
                  _leave_enabled := leave;
                  _inter_func := inter_func a;
                  _param_strict := strict;
                  _module_masks := [];
                  _allowed_loggers := allowed_loggers a;
                  _applied_sparsity := None;
                  _last_logged_sparsity := None;
                  _analyzers := None |}
        | _ =>
          Err (TypeError
            "final_sparsity must be of float type for GradualKSModifier")
        end
    | _ =>
      Err (TypeError
        "init_sparsity must be of float type for GradualKSModifier")
    end.

(** Attribute assignment [self.<attr> = v], one function per attribute
    that a method assigns. *)
Definition assign_super (m : GradualKSModifier) (v : base) : GradualKSModifier :=
  {| super := v;
     _param := _param m;
     _layers := _layers m;
     _init_sparsity := _init_sparsity m;
     _final_sparsity := _final_sparsity m;
     _leave_enabled := _leave_enabled m;
     _inter_func := _inter_func m;
     _param_strict := _param_strict m;
     _module_masks := _module_masks m;
     _allowed_loggers := _allowed_loggers m;
     _applied_sparsity := _applied_sparsity m;
     _last_logged_sparsity := _last_logged_sparsity m;
     _analyzers := _analyzers m |}.

Definition assign_param (m : GradualKSModifier) (v : string) : GradualKSModifier :=
  {| super := super m;
     _param := v;
     _layers := _layers m;
     _init_sparsity := _init_sparsity m;
     _final_sparsity := _final_sparsity m;
     _leave_enabled := _leave_enabled m;
     _inter_func := _inter_func m;
     _param_strict := _param_strict m;
     _module_masks := _module_masks m;
     _allowed_loggers := _allowed_loggers m;
     _applied_sparsity := _applied_sparsity m;
     _last_logged_sparsity := _last_logged_sparsity m;
     _analyzers := _analyzers m |}.

Definition assign_layers (m : GradualKSModifier) (v : str_or_list) : GradualKSModifier :=
  {| super := super m;
     _param := _param m;
     _layers := v;
     _init_sparsity := _init_sparsity m;
     _final_sparsity := _final_sparsity m;
     _leave_enabled := _leave_enabled m;
     _inter_func := _inter_func m;
     _param_strict := _param_strict m;
     _module_masks := _module_masks m;
     _allowed_loggers := _allowed_loggers m;
     _applied_sparsity := _applied_sparsity m;
     _last_logged_sparsity := _last_logged_sparsity m;
     _analyzers := _analyzers m |}.

Definition assign_init_sparsity (m : GradualKSModifier) (v : float) : GradualKSModifier :=
  {| super := super m;
     _param := _param m;
     _layers := _layers m;
     _init_sparsity := v;
     _final_sparsity := _final_sparsity m;
     _leave_enabled := _leave_enabled m;
     _inter_func := _inter_func m;
     _param_strict := _param_strict m;
     _module_masks := _module_masks m;
     _allowed_loggers := _allowed_loggers m;
     _applied_sparsity := _applied_sparsity m;
     _last_logged_sparsity := _last_logged_sparsity m;
     _analyzers := _analyzers m |}.

Definition assign_final_sparsity (m : GradualKSModifier) (v : float) : GradualKSModifier :=
  {| super := super m;
     _param := _param m;
     _layers := _layers m;
     _init_sparsity := _init_sparsity m;
     _final_sparsity := v;
     _leave_enabled := _leave_enabled m;
     _inter_func := _inter_func m;
     _param_strict := _param_strict m;
     _module_masks := _module_masks m;
     _allowed_loggers := _allowed_loggers m;
     _applied_sparsity := _applied_sparsity m;
     _last_logged_sparsity := _last_logged_sparsity m;
     _analyzers := _analyzers m |}.

Definition assign_leave_enabled (m : GradualKSModifier) (v : bool) : GradualKSModifier :=
  {| super := super m;
     _param := _param m;
     _layers := _layers m;
     _init_sparsity := _init_sparsity m;
     _final_sparsity := _final_sparsity m;
     _leave_enabled := v;
     _inter_func := _inter_func m;
     _param_strict := _param_strict m;
     _module_masks := _module_masks m;
     _allowed_loggers := _allowed_loggers m;
     _applied_sparsity := _applied_sparsity m;
     _last_logged_sparsity := _last_logged_sparsity m;
     _analyzers := _analyzers m |}.

Definition assign_inter_func (m : GradualKSModifier) (v : string) : GradualKSModifier :=
  {| super := super m;
     _param := _param m;
     _layers := _layers m;
     _init_sparsity := _init_sparsity m;
     _final_sparsity := _final_sparsity m;
     _leave_enabled := _leave_enabled m;
     _inter_func := v;
     _param_strict := _param_strict m;
     _module_masks := _module_masks m;
     _allowed_loggers := _allowed_loggers m;
     _applied_sparsity := _applied_sparsity m;
     _last_logged_sparsity := _last_logged_sparsity m;
     _analyzers := _analyzers m |}.

Definition assign_param_strict (m : GradualKSModifier) (v : bool) : GradualKSModifier :=
  {| super := super m;
     _param := _param m;
     _layers := _layers m;
     _init_sparsity := _init_sparsity m;
     _final_sparsity := _final_sparsity m;
     _leave_enabled := _leave_enabled m;
     _inter_func := _inter_func m;
     _param_strict := v;
     _module_masks := _module_masks m;
     _allowed_loggers := _allowed_loggers m;
     _applied_sparsity := _applied_sparsity m;
     _last_logged_sparsity := _last_logged_sparsity m;
     _analyzers := _analyzers m |}.

Definition assign_module_masks (m : GradualKSModifier) (v : list ModuleParamKSMask) : GradualKSModifier :=
  {| super := super m;
     _param := _param m;
     _layers := _layers m;
     _init_sparsity := _init_sparsity m;
     _final_sparsity := _final_sparsity m;
     _leave_enabled := _leave_enabled m;
     _inter_func := _inter_func m;
     _param_strict := _param_strict m;
     _module_masks := v;
     _allowed_loggers := _allowed_loggers m;
     _applied_sparsity := _applied_sparsity m;
     _last_logged_sparsity := _last_logged_sparsity m;
     _analyzers := _analyzers m |}.

Definition assign_applied_sparsity (m : GradualKSModifier) (v : option float) : GradualKSModifier :=
  {| super := super m;
     _param := _param m;
     _layers := _layers m;
     _init_sparsity := _init_sparsity m;
     _final_sparsity := _final_sparsity m;
     _leave_enabled := _leave_enabled m;
     _inter_func := _inter_func m;
     _param_strict := _param_strict m;
     _module_masks := _module_masks m;
     _allowed_loggers := _allowed_loggers m;
     _applied_sparsity := v;
     _last_logged_sparsity := _last_logged_sparsity m;
     _analyzers := _analyzers m |}.

Definition assign_last_logged_sparsity (m : GradualKSModifier) (v : option float) : GradualKSModifier :=
  {| super := super m;
     _param := _param m;
     _layers := _layers m;
     _init_sparsity := _init_sparsity m;
     _final_sparsity := _final_sparsity m;
     _leave_enabled := _leave_enabled m;
     _inter_func := _inter_func m;
     _param_strict := _param_strict m;
     _module_masks := _module_masks m;
     _allowed_loggers := _allowed_loggers m;
     _applied_sparsity := _applied_sparsity m;
     _last_logged_sparsity := v;
     _analyzers := _analyzers m |}.

Definition assign_analyzers (m : GradualKSModifier) (v : option (list ModuleKSAnalyzer)) : GradualKSModifier :=
  {| super := super m;
     _param := _param m;
     _layers := _layers m;
     _init_sparsity := _init_sparsity m;
     _final_sparsity := _final_sparsity m;
     _leave_enabled := _leave_enabled m;
     _inter_func := _inter_func m;
     _param_strict := _param_strict m;
     _module_masks := _module_masks m;
     _allowed_loggers := _allowed_loggers m;
     _applied_sparsity := _applied_sparsity m;
     _last_logged_sparsity := _last_logged_sparsity m;
     _analyzers := v |}.

(** *** Property setters

    Each setter calls [self.prop_set_check(name)] of the base class and
    then stores the value as given. *)

Definition guarded_assign {V} (name : string)
    (assign : GradualKSModifier -> V -> GradualKSModifier)
    (m : GradualKSModifier) (v : V) : outcome GradualKSModifier :=
  match prop_set_check (super m) name with
  | Some e => Raised e m
  | None => Returned (assign m v)
  end.

Definition param_setter := guarded_assign "param" assign_param.
Definition layers_setter := guarded_assign "layers" assign_layers.
Definition init_sparsity_setter :=
  guarded_assign "init_sparsity" assign_init_sparsity.
Definition final_sparsity_setter :=
  guarded_assign "final_sparsity" assign_final_sparsity.
Definition leave_enabled_setter :=
  guarded_assign "leave_enabled" assign_leave_enabled.
Definition inter_func_setter := guarded_assign "inter_func" assign_inter_func.
Definition param_strict_setter :=
  guarded_assign "param_strict" assign_param_strict.

(** *** [initialize] *)

(** [self._layers == ALL_TOKEN]: a list never equals the token. *)
Definition is_all_token (ls : str_or_list) : bool :=
  match ls with
  | Str s => String.eqb s ALL_TOKEN
  | StrList _ => false
  end.

Fixpoint chars (s : string) : list string :=
  match s with
  | EmptyString => []
  | String c r => String c EmptyString :: chars r
  end.

(** [for name in self._layers]: the items of a list, the characters of
    a str. *)
Definition iter_names (ls : str_or_list) : list string :=
  match ls with
  | Str s => chars s
  | StrList l => l
  end.

(** [d[k] = v] on a dict, which keeps insertion order: a key already
    present keeps its place and takes the new value. *)
Fixpoint dict_set {V} (d : list (string * V)) (k : string) (v : V)
  : list (string * V) :=
  match d with
  | [] => [(k, v)]
  | (k', v') :: r =>
      if String.eqb k' k then (k', v) :: r else (k', v') :: dict_set r k v
  end.

(** [{name: get_layer(name, module) for name in names}], the first
    failing lookup raising. *)
Fixpoint layers_by_name (names : list string) (md : Module_)
    (acc : list (string * Layer)) : result (list (string * Layer)) :=
  match names with
  | [] => Ok acc
  | name :: rest =>
      match get_layer name md with
      | Err e => Err e
      | Ok l => layers_by_name rest md (dict_set acc name l)
      end
  end.

Definition resolve_layers (ls : str_or_list) (md : Module_)
  : result (list (string * Layer)) :=
  if is_all_token ls then Ok (get_terminal_layers md)
  else layers_by_name (iter_names ls) md [].

(** The inner loop over [layer.named_parameters()]: the first parameter
    name equal to [p], if any. *)
Fixpoint find_param (p : string) (ps : list (string * Tensor)) : option string :=
  match ps with
  | [] => None
  | (param_name, _) :: rest =>
      if String.eqb param_name p then Some param_name else find_param p rest
  end.

Definition append_analyzer (m : GradualKSModifier) (a : ModuleKSAnalyzer)
  : GradualKSModifier :=
  assign_analyzers m
    (match _analyzers m with
     | Some l => Some (l ++ [a])
     | None => None
     end).

(** The body of [for name, layer in layers.items()]. *)
Fixpoint initialize_loop (m : GradualKSModifier) (ls : list (string * Layer))
  : outcome GradualKSModifier :=
  match ls with
  | [] => Returned m
  | (name, layer) :: rest =>
      let (m1, found) :=
        match find_param (_param m) (named_parameters layer) with
        | Some param_name =>
            (append_analyzer
               (assign_module_masks m
                  (_module_masks m ++ [mask_new layer (_param m)]))
               {| an_layer := layer; an_name := name; an_param := param_name |},
             true)
        | None => (m, false)
        end in
      if _param_strict m1 && negb (is_all_token (_layers m1)) && negb found
      then Raised
             (ValueError "Could not find required param {} in layer {} for GradualKSModifier")
             m1
      else initialize_loop m1 rest
  end.

Definition initialize (m : GradualKSModifier) (md : Module_) (opt : Optimizer)
  : outcome GradualKSModifier :=
  match super_initialize (super m) md opt with
  | Raised e b => Raised e (assign_super m b)
  | Returned b =>
      let m := assign_super m b in
      match resolve_layers (_layers m) md with
      | Err e => Raised e m
      | Ok ls => initialize_loop (assign_analyzers m (Some [])) ls
      end
  end.

(** *** [update] *)

Definition update (m : GradualKSModifier) (md : Module_) (opt : Optimizer)
    (epoch : float) (steps_per_epoch : Z) : outcome GradualKSModifier :=
  match super_update (super m) md opt epoch steps_per_epoch with
  | Raised e b => Raised e (assign_super m b)
  | Returned b =>
      let m := assign_super m b in
      let m :=
        if start_pending (super m) epoch steps_per_epoch
        then assign_module_masks m (map (set_enabled true) (_module_masks m))
        else m in
      let m :=
        if end_pending (super m) epoch steps_per_epoch
           && negb (_leave_enabled m)
        then assign_module_masks m (map (set_enabled false) (_module_masks m))
        else m in
      match interpolate epoch (start_epoch (super m)) (end_epoch (super m))
              (_init_sparsity m) (_final_sparsity m) (_inter_func m) with
      | Err e => Raised e m
      | Ok v =>
          let m := assign_applied_sparsity m (Some v) in
          Returned
            (assign_module_masks m
               (map (set_param_mask_from_sparsity v) (_module_masks m)))
      end
  end.

(** *** [_log_sparsity] and [log_update] *)

Definition log_step (epoch : float) (steps_per_epoch : Z) : result Z :=
  if (steps_per_epoch <=? 0)%Z then Py.round epoch
  else x <- mul_float_int epoch steps_per_epoch ;; Py.round x.

Definition scalar_for (step : Z) (logger : string) (analyzer : ModuleKSAnalyzer)
  : log_scalar :=
  {| ev_logger := logger;
     ev_tag := "Modifier KS/" ++ tag analyzer;
     ev_value := param_sparsity_item analyzer;
     ev_step := step |}.

(** The two nested loops, the emitted calls accumulated in order.
    Iterating over analyzers that are still [None] raises. *)
Fixpoint log_loggers (lgs : list string) (analyzers : option (list ModuleKSAnalyzer))
    (step : Z) (emitted : list log_scalar) : result (list log_scalar) :=
  match lgs with
  | [] => Ok emitted
  | logger :: rest =>
      match analyzers with
      | None => Err (TypeError "'NoneType' object is not iterable")
      | Some ans =>
          log_loggers rest analyzers step
            (fold_left (fun acc a => acc ++ [scalar_for step logger a]) ans emitted)
      end
  end.

Definition _log_sparsity (analyzers : option (list ModuleKSAnalyzer))
    (lgs : list string) (epoch : float) (steps_per_epoch : Z)
  : result (list log_scalar) :=
  step <- log_step epoch steps_per_epoch ;;
  log_loggers lgs analyzers step [].

(** [log_update]: the object after the call and the scalars logged. *)
Definition log_update (m : GradualKSModifier) (md : Module_) (opt : Optimizer)
    (epoch : float) (steps_per_epoch : Z)
  : outcome GradualKSModifier * list log_scalar :=
  match super_log_update (super m) md opt epoch steps_per_epoch with
  | Raised e b => (Raised e (assign_super m b), [])
  | Returned b =>
      let m := assign_super m b in
      if ne_opt_float (_applied_sparsity m) (_last_logged_sparsity m) then
        let m := assign_last_logged_sparsity m (_applied_sparsity m) in
        match _log_sparsity (_analyzers m) (loggers (super m)) epoch
                steps_per_epoch with
        | Ok evs => (Returned m, evs)
        | Err e => (Raised e m, [])
        end
      else (Returned m, [])
  end.

(** *** [optimizer_post_step] *)

Definition optimizer_post_step (m : GradualKSModifier) (md : Module_)
    (opt : Optimizer) (epoch : float) (steps_per_epoch : Z)
  : outcome GradualKSModifier :=
  match super_optimizer_post_step (super m) md opt epoch steps_per_epoch with
  | Raised e b => Raised e (assign_super m b)
  | Returned b =>
      let m := assign_super m b in
      Returned (assign_module_masks m (map apply (_module_masks m)))
  end.

(** *** Sequences of public operations *)

Inductive op : Type :=
| OpSetParam (v : string)
| OpSetLayers (v : str_or_list)
| OpSetInitSparsity (v : float)
| OpSetFinalSparsity (v : float)
| OpSetLeaveEnabled (v : bool)
| OpSetInterFunc (v : string)
| OpSetParamStrict (v : bool)
| OpInitialize (md : Module_) (opt : Optimizer)
| OpUpdate (md : Module_) (opt : Optimizer) (epoch : float) (spe : Z)
| OpLogUpdate (md : Module_) (opt : Optimizer) (epoch : float) (spe : Z)
| OpOptimizerPostStep (md : Module_) (opt : Optimizer) (epoch : float) (spe : Z).

Definition perform (m : GradualKSModifier) (o : op) : outcome GradualKSModifier :=
  match o with
  | OpSetParam v => param_setter m v
  | OpSetLayers v => layers_setter m v
  | OpSetInitSparsity v => init_sparsity_setter m v
  | OpSetFinalSparsity v => final_sparsity_setter m v
  | OpSetLeaveEnabled v => leave_enabled_setter m v
  | OpSetInterFunc v => inter_func_setter m v
  | OpSetParamStrict v => param_strict_setter m v
  | OpInitialize md opt => initialize m md opt
  | OpUpdate md opt epoch spe => update m md opt epoch spe
  | OpLogUpdate md opt epoch spe => fst (log_update m md opt epoch spe)
  | OpOptimizerPostStep md opt epoch spe =>
      optimizer_post_step m md opt epoch spe
  end.

(** The object after a sequence of calls; a caller may catch an
    exception and go on, so the sequence continues past a raising call. *)
Definition perform_all (ops : list op) (m : GradualKSModifier)
  : GradualKSModifier :=
  fold_left (fun m o => state_of (perform m o)) ops m.

(** *** Observations on masks

    [received_since k k' calls]: the mask object [k] has become [k'] by
    receiving exactly [calls], in that order; it still masks the same
    parameter of the same layer. *)
Definition received_since (k k' : ModuleParamKSMask) (calls : list mask_call)
  : Prop :=
  received k' = received k ++ calls
  /\ mask_layer k' = mask_layer k
  /\ mask_param k' = mask_param k.

Definition has_param (p : string) (nl : string * Layer) : bool :=
  match find_param p (named_parameters (snd nl)) with
  | Some _ => true
  | None => false
  end.

(** The [enabled] assignments that [update] makes on each mask before it
    interpolates, from the two edge tests and [leave_enabled]. *)
Definition toggles (start_edge end_edge leave : bool) : list mask_call :=
  (if start_edge then [SetEnabled true] else [])
  ++ (if end_edge && negb leave then [SetEnabled false] else []).

(** *** The construction contract as the specification words it

    Section 4.4 lists when construction fails: [start_epoch < 0],
    [end_epoch < start_epoch], a sparsity outside [[0, 1]], an
    unrecognized curve.  [outside_unit_interval] reads "outside [[0, 1]]"
    on any Python value: by its number, and a value that is no number
    lies outside. *)
Definition outside_unit_interval (v : value) : bool :=
  match v with
  | VFloat f => out_of_unit_range f
  | VInt z => (z <? 0)%Z || (1 <? z)%Z
  | VBool _ => false
  | VNone | VStr _ => true
  end.

Definition stated_invalid (a : init_args) : bool :=
  PrimFloat.ltb (arg_start_epoch a) 0
  || PrimFloat.ltb (arg_end_epoch a) (arg_start_epoch a)
  || outside_unit_interval (init_sparsity a)
  || outside_unit_interval (final_sparsity a)
  || negb (in_list (inter_func a) INTERPOLATION_FUNCS).

(** The masks and analyzers that [initialize] registers for resolved
    layers [ls]: one of each per layer that has the parameter [p], in the
    order of the layers. *)
Definition target_masks (p : string) (ls : list (string * Layer))
  : list ModuleParamKSMask :=
  map (fun nl => mask_new (snd nl) p) (filter (has_param p) ls).

Definition target_analyzers (p : string) (ls : list (string * Layer))
  : list ModuleKSAnalyzer :=
  map (fun nl => {| an_layer := snd nl; an_name := fst nl; an_param := p |})
    (filter (has_param p) ls).

(** One [log_scalar] call per (logger, analyzer) pair, logger by logger. *)
Definition expected_scalars (lgs : list string) (ans : list ModuleKSAnalyzer)
    (step : Z) : list log_scalar :=
  flat_map (fun logger => map (scalar_for step logger) ans) lgs.

Definition is_update (o : op) : bool :=
  match o with OpUpdate _ _ _ _ => true | _ => false end.

Definition is_log_update (o : op) : bool :=
  match o with OpLogUpdate _ _ _ _ => true | _ => false end.

Definition is_inter_func_assignment (o : op) : bool :=
  match o with OpSetInterFunc _ => true | _ => false end.

End Modifier.

End KS.


(** ** The manager: [sparseml/keras/optim/manager.py] *)

Module Manager.

Section Keras.

(** The Keras objects that pass through the manager untouched. *)
Variables Model Optimizer Callback Loggers InputTensors : Type.

(** What [mod.modify] hands back as its third component. *)
Inductive callback_value : Type :=
| CbNone
| CbList (l : list Callback)
| CbCallback (c : Callback)
| CbOther (v : value).

(** A [ScheduledModifier] as the manager uses it: its [start_epoch] and
    its [modify] method; [mod_id] stands for the identity of the object. *)
Record ScheduledModifier : Type := {
  mod_id : nat;
  start_epoch : float;
  mod_modify :
    Model -> Optimizer -> Z -> option Loggers -> option InputTensors ->
    result (Model * Optimizer * callback_value)
}.

Record ScheduledModifierManager : Type := {
  _modifiers : list ScheduledModifier;
  _optimizer : option Optimizer
}.

(** Modelled from the spec: the constructor of [BaseManager], which is
    defined elsewhere; the manager owns the modifiers it is given. *)
Definition BaseManager_init (modifiers : list ScheduledModifier)
  : list ScheduledModifier := modifiers.

Definition __init__ (modifiers : list ScheduledModifier)
  : ScheduledModifierManager :=
  {| _modifiers := BaseManager_init modifiers; _optimizer := None |}.

(** [list.sort(key=lambda mod: mod.start_epoch)]: a stable sort that
    compares the keys with [<].  On keys that [<] orders, that is when
    no key is NaN, every stable sort returns the same list, here
    computed by insertion.  A list in which no element is smaller than
    the one before it is one ascending run, which [list.sort] leaves as
    it is whatever the keys; so does the insertion.  On other lists
    with a NaN key the result of [list.sort] depends on its merging and
    is not what the insertion gives: what is proved of [modify] below
    is proved for keys that are numbers, or for a list that is one
    ascending run. *)
Fixpoint insert (x : ScheduledModifier) (l : list ScheduledModifier)
  : list ScheduledModifier :=
  match l with
  | [] => [x]
  | y :: r =>
      if PrimFloat.ltb (start_epoch y) (start_epoch x)
      then y :: insert x r
      else x :: y :: r
  end.

Definition sort_by_start_epoch (l : list ScheduledModifier)
  : list ScheduledModifier :=
  fold_right insert [] l.

(** The loop of [modify] over the sorted modifiers.  [called] lists the
    modifiers whose [modify] has been invoked so far, in call order. *)
Fixpoint modify_loop (mods : list ScheduledModifier) (model : Model)
    (optimizer : Optimizer) (steps_per_epoch : Z) (loggers : option Loggers)
    (input_tensors : option InputTensors) (callbacks : list Callback)
    (called : list ScheduledModifier)
  : list ScheduledModifier * result (Model * Optimizer * list Callback) :=
  match mods with
  | [] => (called, Ok (model, optimizer, callbacks))
  | md :: rest =>
      match mod_modify md model optimizer steps_per_epoch loggers input_tensors with
      | Err e => (called ++ [md], Err e)
      | Ok (model', optimizer', callback) =>
          match callback with
          | CbNone =>
              modify_loop rest model' optimizer' steps_per_epoch loggers
                input_tensors callbacks (called ++ [md])
          | CbList l =>
              modify_loop rest model' optimizer' steps_per_epoch loggers
                input_tensors (callbacks ++ l) (called ++ [md])
          | CbCallback c =>
              modify_loop rest model' optimizer' steps_per_epoch loggers
                input_tensors (callbacks ++ [c]) (called ++ [md])
          | CbOther _ =>
              (called ++ [md], Err (RuntimeError "Invalid callback type"))
          end
      end
  end.

(** The outcome of one [modify] call on the manager. *)
Record modify_result : Type := {
  manager_after : ScheduledModifierManager;
  called : list ScheduledModifier;
  returned_value : result (Model * Optimizer * list Callback)
}.

Definition modify (self : ScheduledModifierManager) (model : Model)
    (optimizer : Optimizer) (steps_per_epoch : Z) (loggers : option Loggers)
    (input_tensors : option InputTensors) : modify_result :=
  let sorted := sort_by_start_epoch (_modifiers self) in
  let (calls, r) :=
    modify_loop sorted model optimizer steps_per_epoch loggers input_tensors
      [] [] in
  {| manager_after :=
       {| _modifiers := sorted;
          _optimizer :=
            match r with
            | Ok (_, optimizer', _) => Some optimizer'
            | Err _ => _optimizer self
            end |};
     called := calls;
     returned_value := r |}.

End Keras.

End Manager.


(** ** A concrete environment

    The collaborators of the modifier are not among the files at hand.
    This module gives them the behaviour the specification describes, so
    that the embedding can be run on concrete trainings. *)

Module Sample.

Import KS.

Set Warnings "-inexact-float".

(** Modelled from the spec: [interpolate] of [neuralmagicML.pytorch.utils]
    (section 4.1).  Unrecognized curve names fail; [x] is clamped to
    [[x0, x1]]; [t] is the progress through the interval, [1.0] when the
    interval is empty. *)
Definition interpolate (x x0 x1 y0 y1 : float) (curve : string) : result float :=
  if negb (in_list curve INTERPOLATION_FUNCS) then
    Err (ValueError "unsupported interpolation curve")
  else if PrimFloat.leb x x0 then Ok y0
  else if PrimFloat.leb x1 x then Ok y1
  else
    let t := if PrimFloat.ltb x0 x1 then ((x - x0) / (x1 - x0))%float
             else 1%float in
    if String.eqb curve "linear" then Ok (y0 + t * (y1 - y0))%float
    else if String.eqb curve "cubic" then
      Ok (y0 + (t * t * t) * (y1 - y0))%float
    else
      Ok (y0 + (1 - (1 - t) * (1 - t) * (1 - t)) * (y1 - y0))%float.

(** Modelled from the spec: the state of the base class
    [ScheduledUpdateModifier]: the schedule window (section 3), whether
    [initialize] has run (the guard of the property setters, sections 3
    and 9), and the epochs of the last two [update] calls, from which
    the start and end edges of section 4.4 are told. *)
Record base_state : Type := {
  b_start_epoch : float;
  b_end_epoch : float;
  b_update_frequency : float;
  b_initialized : bool;
  b_loggers : list string;
  b_previous_epoch : option float;
  b_current_epoch : option float
}.

(** Modelled from the spec: the constructor of the base class stores
    the schedule window; nothing is initialized or logged yet. *)
Definition base_new (s e u : float) : result base_state :=
  Ok {| b_start_epoch := s; b_end_epoch := e; b_update_frequency := u;
        b_initialized := false; b_loggers := ["python"]%string;
        b_previous_epoch := None; b_current_epoch := None |}.

(** Modelled from the spec: properties may be assigned only while the
    modifier is not yet initialized. *)
Definition base_prop_set_check (b : base_state) (name : string) : option exn :=
  if b_initialized b
  then Some (RuntimeError "cannot change a property after initialize")
  else None.

(** Modelled from the spec: [initialize] of the base class marks the
    modifier initialized. *)
Definition base_initialize (b : base_state) : outcome base_state :=
  Returned
    {| b_start_epoch := b_start_epoch b; b_end_epoch := b_end_epoch b;
       b_update_frequency := b_update_frequency b; b_initialized := true;
       b_loggers := b_loggers b; b_previous_epoch := b_previous_epoch b;
       b_current_epoch := b_current_epoch b |}.

(** Modelled from the spec: [update] of the base class notes the epoch
    of the call. *)
Definition base_update (b : base_state) (epoch : float) : outcome base_state :=
  Returned
    {| b_start_epoch := b_start_epoch b; b_end_epoch := b_end_epoch b;
       b_update_frequency := b_update_frequency b;
       b_initialized := b_initialized b; b_loggers := b_loggers b;
       b_previous_epoch := b_current_epoch b;
       b_current_epoch := Some epoch |}.

(** Modelled from the spec: an edge at [bound] is the first call whose
    epoch has reached [bound]: no earlier call had. *)
Definition edge (bound : float) (b : base_state) (epoch : float) : bool :=
  PrimFloat.leb bound epoch
  && match b_previous_epoch b with
     | None => true
     | Some p => PrimFloat.ltb p bound
     end.

(** Modelled from the spec: the layer graph queries of section 6 on a
    model given as its named terminal layers; a missing layer fails. *)
Fixpoint lookup_layer (name : string) (md : list (string * Layer)) : result Layer :=
  match md with
  | [] => Err (ValueError "layer not found")
  | (n, l) :: r => if String.eqb n name then Ok l else lookup_layer name r
  end.

(** Modelled from the spec: [layers] is the wildcard token or an
    explicit list of names (section 6). *)
Definition check_str_list (v : str_or_list) (desc : string) : result str_or_list :=
  match v with
  | Str s => if String.eqb s ALL_TOKEN then Ok v
             else Err (ValueError "unsupported string")
  | StrList _ => Ok v
  end.

(** Modelled from the spec: [convert_to_bool] on the [bool] options of
    section 6, as the truth value of the Python value. *)
Definition truth (v : value) : bool :=
  match v with
  | VNone => false
  | VBool b => b
  | VInt z => negb (z =? 0)%Z
  | VFloat f => negb (PrimFloat.eqb f 0)
  | VStr s => negb (String.eqb s "")
  end.

Definition tracked_tensor (a : ModuleKSAnalyzer) : Tensor :=
  match find (fun p => String.eqb (fst p) (an_param a))
          (named_parameters (an_layer a)) with
  | Some (_, t) => t
  | None => []
  end.

(** Modelled from the spec: [param_sparsity] is the fraction of the
    elements of the tracked parameter that are exactly zero
    (section 4.3). *)
Definition zero_fraction (a : ModuleKSAnalyzer) : float :=
  let t := tracked_tensor a in
  let zeros :=
    Z.of_nat (List.length (filter (fun x => PrimFloat.eqb x 0) t)) in
  match float_of_int zeros, float_of_int (Z.of_nat (List.length t)) with
  | Ok z, Ok n => (z / n)%float
  | _, _ => nan
  end.

#[export] Instance env : Env := {|
  Module_ := list (string * Layer);
  Optimizer := unit;
  get_terminal_layers := fun md => md;
  get_layer := lookup_layer;
  convert_to_bool := truth;
  validate_str_list := check_str_list;
  KS.interpolate := interpolate;
  base := base_state;
  super_init := base_new;
  start_epoch := b_start_epoch;
  end_epoch := b_end_epoch;
  loggers := b_loggers;
  prop_set_check := base_prop_set_check;
  start_pending := fun b epoch _ => edge (b_start_epoch b) b epoch;
  end_pending := fun b epoch _ => edge (b_end_epoch b) b epoch;
  super_initialize := fun b _ _ => base_initialize b;
  super_update := fun b _ _ epoch _ => base_update b epoch;
  super_log_update := fun b _ _ _ _ => Returned b;
  super_optimizer_post_step := fun b _ _ _ _ => Returned b;
  tag := fun a => (an_name a ++ "." ++ an_param a)%string;
  param_sparsity_item := zero_fraction
|}.

(** A model with a convolution that has no bias and a linear layer. *)
Definition conv1 : Layer :=
  {| layer_id := 1;
     named_parameters := [("weight"%string, [0.5; 0; -0.25; 0]%float)] |}.

Definition fc : Layer :=
  {| layer_id := 2;
     named_parameters := [("weight"%string, [1; -2]%float);
                          ("bias"%string, [0.125]%float)] |}.

Definition model : list (string * Layer) :=
  [("conv1"%string, conv1); ("fc"%string, fc)].

(** The arguments of the docstring's recipe, with the schedule of the
    specification's scenario: sparsity 0.0 to 0.8 over epochs 0 to 10. *)
Definition recipe : init_args :=
  {| param := "weight";
     layers := Str ALL_TOKEN;
     init_sparsity := VFloat 0;
     final_sparsity := VFloat 0.8;
     arg_start_epoch := 0;
     arg_end_epoch := 10;
     update_frequency := 1;
     leave_enabled := VBool true;
     inter_func := "linear";
     param_strict := VBool true;
     allowed_loggers := Str ALL_TOKEN |}.

Definition with_sparsities (a : init_args) (i f : value) : init_args :=
  {| param := param a; layers := layers a; init_sparsity := i;
     final_sparsity := f; arg_start_epoch := arg_start_epoch a;
     arg_end_epoch := arg_end_epoch a;
     update_frequency := update_frequency a;
     leave_enabled := leave_enabled a; inter_func := inter_func a;
     param_strict := param_strict a;
     allowed_loggers := allowed_loggers a |}.

Definition with_epochs (a : init_args) (s e : float) : init_args :=
  {| param := param a; layers := layers a;
     init_sparsity := init_sparsity a;
     final_sparsity := final_sparsity a; arg_start_epoch := s;
     arg_end_epoch := e; update_frequency := update_frequency a;
     leave_enabled := leave_enabled a; inter_func := inter_func a;
     param_strict := param_strict a;
     allowed_loggers := allowed_loggers a |}.

Definition with_selection (a : init_args) (p : string) (ls : str_or_list)
    (strict leave : bool) : init_args :=
  {| param := p; layers := ls; init_sparsity := init_sparsity a;
     final_sparsity := final_sparsity a;
     arg_start_epoch := arg_start_epoch a;
     arg_end_epoch := arg_end_epoch a;
     update_frequency := update_frequency a;
     leave_enabled := VBool leave; inter_func := inter_func a;
     param_strict := VBool strict;
     allowed_loggers := allowed_loggers a |}.

(** The object that [__init__ a] returns; a failed construction leaves no
    object, for which [unconstructed] stands. *)
Definition unconstructed : GradualKSModifier :=
  {| super :=
       {| b_start_epoch := nan; b_end_epoch := nan; b_update_frequency := nan;
          b_initialized := false; b_loggers := [];
          b_previous_epoch := None; b_current_epoch := None |};
     _param := ""; _layers := StrList []; _init_sparsity := nan;
     _final_sparsity := nan; _leave_enabled := false; _inter_func := "";
     _param_strict := false; _module_masks := [];
     _allowed_loggers := StrList []; _applied_sparsity := None;
     _last_logged_sparsity := None; _analyzers := None |}.

Definition constructed (a : init_args) : GradualKSModifier :=
  match __init__ a with
  | Ok m => m
  | Err _ => unconstructed
  end.

(** The modifier of [a] after [initialize] on [model]. *)
Definition initialized (a : init_args) : GradualKSModifier :=
  state_of (initialize (constructed a) model tt).

(** The states of the scenario: the recipe's modifier after
    [initialize], and after a first [update] at epoch 5. *)
Definition ready : GradualKSModifier := initialized recipe.

Definition halfway : GradualKSModifier :=
  state_of (update ready model tt 5 100).

(** The same schedule with [leave_enabled] false. *)
Definition stopping : GradualKSModifier :=
  initialized (with_selection recipe "weight" (Str ALL_TOKEN) true false).

(** Pruning the biases, which [conv1] lacks: of the explicit list
    [["conv1"]], and of all layers. *)
Definition bias_of_conv1 : GradualKSModifier :=
  constructed (with_selection recipe "bias" (StrList ["conv1"%string]) true true).

Definition bias_of_all : GradualKSModifier :=
  constructed (with_selection recipe "bias" (Str ALL_TOKEN) true true).

(** Call sequences on a freshly constructed modifier. *)
Definition without_update : list op :=
  [OpInitialize model tt; OpOptimizerPostStep model tt 0 100].

Definition without_curve_assignment : list op :=
  [OpSetParam "bias"; OpInitialize model tt; OpUpdate model tt 5 100].

Definition with_curve_assignment : list op :=
  [OpSetInterFunc "quadratic"; OpInitialize model tt].

(** A recognized curve assigned before [initialize], an unrecognized one
    tried after it. *)
Definition with_checked_curve_assignments : list op :=
  [OpSetInterFunc "cubic"; OpInitialize model tt; OpSetInterFunc "quadratic";
   OpUpdate model tt 5 100].

(** Three Keras modifiers for the manager, listed out of order.  The
    model is the list of the modifiers that have modified it. *)
Definition keras_modifier (id : nat) (start : float) (cb : Manager.callback_value string)
  : Manager.ScheduledModifier (list nat) unit string unit unit :=
  {| Manager.mod_id := id;
     Manager.start_epoch := start;
     Manager.mod_modify :=
       fun model optimizer _ _ _ => Ok (model ++ [id], optimizer, cb) |}.

Definition pruning_late :=
  keras_modifier 1 2 (Manager.CbCallback "late"%string).
Definition lr_schedule := keras_modifier 2 0 (Manager.CbNone string).
Definition pruning_early :=
  keras_modifier 3 1 (Manager.CbList ["early"; "log"]%string).

Definition keras_modifiers := [pruning_late; lr_schedule; pruning_early].

(** Modifiers that start at epochs 2.0, NaN and 1.0, in that order. *)
Definition starts_at_two := keras_modifier 1 2 (Manager.CbNone string).
Definition starts_at_nan := keras_modifier 2 nan (Manager.CbNone string).
Definition starts_at_one := keras_modifier 3 1 (Manager.CbNone string).

Definition modifiers_around_nan :=
  [starts_at_two; starts_at_nan; starts_at_one].

(** Two modifiers that start at epoch 1.0, among others. *)
Definition lr_warmup := keras_modifier 4 1 (Manager.CbNone string).

Definition keras_modifiers_with_tie :=
  [pruning_late; pruning_early; lr_warmup; lr_schedule].

(** A modifier whose [modify] returns a number as its callback. *)
Definition invalid_callback :=
  keras_modifier 5 1 (Manager.CbOther string (VInt 7)).

Definition keras_modifiers_with_invalid :=
  [pruning_late; invalid_callback; lr_schedule].

End Sample.


(** * Properties of the modifier *)

Section ModifierFacts.

Import KS.

Context {E : Env}.

(** ** Calls delivered to the masks *)

Lemma received_since_refl (k : ModuleParamKSMask) : received_since k k [].
Proof. unfold received_since. rewrite app_nil_r. auto. Qed.

Lemma received_since_trans (k1 k2 k3 : ModuleParamKSMask) (c1 c2 : list mask_call) :
  received_since k1 k2 c1 -> received_since k2 k3 c2 ->
  received_since k1 k3 (c1 ++ c2).
Proof.
  unfold received_since. intros (H1 & H2 & H3) (H4 & H5 & H6).
  rewrite H4, H1, app_assoc. repeat split; congruence.
Qed.

Lemma received_since_set_enabled (b : bool) (k : ModuleParamKSMask) :
  received_since k (set_enabled b k) [SetEnabled b].
Proof. unfold received_since. simpl. auto. Qed.

Lemma received_since_set_sparsity (v : float) (k : ModuleParamKSMask) :
  received_since k (set_param_mask_from_sparsity v k)
    [SetParamMaskFromSparsity v].
Proof. unfold received_since. simpl. auto. Qed.

Lemma received_since_apply (k : ModuleParamKSMask) :
  received_since k (apply k) [Apply].
Proof. unfold received_since. simpl. auto. Qed.

Lemma Forall2_map_same {A} (R : A -> A -> Prop) (f : A -> A) (l : list A) :
  (forall x, R x (f x)) -> Forall2 R l (map f l).
Proof. intros H. induction l; simpl; constructor; auto. Qed.

Lemma Forall2_same {A} (R : A -> A -> Prop) (l : list A) :
  (forall x, R x x) -> Forall2 R l l.
Proof. intros H. induction l; constructor; auto. Qed.

Lemma Forall2_map_right {A} (R R' : A -> A -> Prop) (f : A -> A) (l l' : list A) :
  (forall x y, R x y -> R' x (f y)) -> Forall2 R l l' -> Forall2 R' l (map f l').
Proof. intros H F. induction F; simpl; constructor; auto. Qed.

Lemma update_masks_after_super (m : GradualKSModifier) (md : Module_)
    (opt : Optimizer) (epoch : float) (spe : Z) (b : base) :
  super_update (super m) md opt epoch spe = Returned b ->
  Forall2
    (fun k k' =>
       exists tail,
         received_since k k'
           (toggles (start_pending b epoch spe) (end_pending b epoch spe)
              (_leave_enabled m) ++ tail)
         /\ (returned (update m md opt epoch spe) = false -> tail = [])
         /\ (forall v, _applied_sparsity (state_of (update m md opt epoch spe)) = Some v ->
             returned (update m md opt epoch spe) = true ->
             tail = [SetParamMaskFromSparsity v] /\ mask_sparsity k' = Some v)
         /\ (start_pending b epoch spe = true ->
             end_pending b epoch spe && negb (_leave_enabled m) = false ->
             enabled k' = true)
         /\ (end_pending b epoch spe && negb (_leave_enabled m) = true ->
             enabled k' = false))
    (_module_masks m) (_module_masks (state_of (update m md opt epoch spe))).
Proof.
  intros Hs. unfold update, toggles. rewrite Hs. simpl.
  destruct (start_pending b epoch spe) eqn:Hsp; simpl;
    destruct (end_pending b epoch spe && negb (_leave_enabled m)) eqn:Hep; simpl;
    destruct (interpolate epoch (start_epoch b) (end_epoch b) (_init_sparsity m)
                (_final_sparsity m) (_inter_func m)) as [v|e]; simpl;
    rewrite ?map_map;
    first [ apply Forall2_map_same | apply Forall2_same ]; intros k;
    first [ exists [SetParamMaskFromSparsity v] | exists (@nil mask_call) ];
    unfold received_since; simpl; rewrite <- ?app_assoc; simpl;
    rewrite ?app_nil_r;
    repeat split; intros; try congruence; try discriminate;
    match goal with
    | H : Some _ = Some _ |- _ => injection H as <-; reflexivity
    | _ => idtac
    end.
Qed.

Lemma update_returns (m : GradualKSModifier) (md : Module_) (opt : Optimizer)
    (epoch : float) (spe : Z) (b : base) (v : float) :
  super_update (super m) md opt epoch spe = Returned b ->
  interpolate epoch (start_epoch b) (end_epoch b) (_init_sparsity m)
    (_final_sparsity m) (_inter_func m) = Ok v ->
  exists m', update m md opt epoch spe = Returned m'
             /\ _applied_sparsity m' = Some v.
Proof.
  intros Hs Hi. unfold update. rewrite Hs. simpl.
  destruct (start_pending b epoch spe); simpl;
    destruct (end_pending b epoch spe && negb (_leave_enabled m)); simpl;
    rewrite Hi; eexists; split; reflexivity.
Qed.

(** C1.  [update] recomputes [applied_sparsity] as
    [interpolate(epoch, start_epoch, end_epoch, init_sparsity,
    final_sparsity, inter_func)] on every call, with no test of where
    [epoch] lies relative to the schedule window, and then calls
    [set_param_mask_from_sparsity(applied_sparsity)] on every mask of the
    target list: it is the last call each mask receives, after at most the
    [enabled] assignments. *)
Theorem update_recomputes_applied_sparsity (m : GradualKSModifier)
    (md : Module_) (opt : Optimizer) (epoch : float) (spe : Z) (b : base)
    (v : float) :
  super_update (super m) md opt epoch spe = Returned b ->
  interpolate epoch (start_epoch b) (end_epoch b) (_init_sparsity m)
    (_final_sparsity m) (_inter_func m) = Ok v ->
  exists m',
    update m md opt epoch spe = Returned m'
    /\ _applied_sparsity m' = Some v
    /\ Forall2
         (fun k k' =>
            exists before,
              received_since k k' (before ++ [SetParamMaskFromSparsity v])
              /\ mask_sparsity k' = Some v
              /\ forall c, In c before -> exists e, c = SetEnabled e)
         (_module_masks m) (_module_masks m').
Proof.
  intros Hs Hi.
  destruct (update_returns m md opt epoch spe Hs Hi) as (m' & Hu & Ha).
  exists m'. split; [exact Hu|]. split; [exact Ha|].
  pose proof (update_masks_after_super m md opt epoch spe Hs) as F.
  rewrite Hu in F. simpl in F.
  revert F. apply Forall2_impl. intros k k' (tail & Hr & _ & Ht & _).
  destruct (Ht v Ha eq_refl) as (-> & Hsp).
  eexists. split; [exact Hr|]. split; [exact Hsp|].
  unfold toggles. intros c Hc. apply in_app_or in Hc.
  destruct Hc as [Hc|Hc];
    [destruct (start_pending b epoch spe)
    |destruct (end_pending b epoch spe && negb (_leave_enabled m))];
    simpl in Hc; try contradiction; destruct Hc as [<-|[]]; eexists;
    reflexivity.
Qed.

(** C2.  When [super().update] has returned: on a start edge
    ([start_pending]) [update] assigns [enabled = True] on every mask; on
    an end edge ([end_pending]) with [leave_enabled] false it assigns
    [enabled = False] on every mask, which leaves each mask disabled;
    with [leave_enabled] true it never assigns [enabled = False].  A call
    in which [super().update] raises touches no mask. *)
Theorem update_toggles_enabled_on_edges (m : GradualKSModifier)
    (md : Module_) (opt : Optimizer) (epoch : float) (spe : Z) :
  let m' := state_of (update m md opt epoch spe) in
  (forall e b, super_update (super m) md opt epoch spe = Raised e b ->
               _module_masks m' = _module_masks m)
  /\ forall b,
      super_update (super m) md opt epoch spe = Returned b ->
      Forall2
        (fun k k' =>
           exists calls,
             received_since k k' calls
             /\ (start_pending b epoch spe = true -> In (SetEnabled true) calls)
             /\ (start_pending b epoch spe = true ->
                 end_pending b epoch spe && negb (_leave_enabled m) = false ->
                 enabled k' = true)
             /\ (end_pending b epoch spe = true -> _leave_enabled m = false ->
                 In (SetEnabled false) calls /\ enabled k' = false)
             /\ (_leave_enabled m = true -> ~ In (SetEnabled false) calls))
        (_module_masks m) (_module_masks m').
Proof.
  intros m'. subst m'. split.
  - intros e b Hs. unfold update. rewrite Hs. reflexivity.
  - intros b Hs.
    pose proof (update_masks_after_super m md opt epoch spe Hs) as F.
    revert F. apply Forall2_impl.
    intros k k' (tail & Hr & Hraise & Hret & Hon & Hoff).
    exists (toggles (start_pending b epoch spe) (end_pending b epoch spe)
              (_leave_enabled m) ++ tail).
    split; [exact Hr|]. split; [|split; [exact Hon|split]].
    + intros Hsp. apply in_or_app. left. unfold toggles. rewrite Hsp.
      simpl. auto.
    + intros Hep Hl. split.
      * apply in_or_app. left. unfold toggles. rewrite Hep, Hl.
        apply in_or_app. right. simpl. auto.
      * apply Hoff. rewrite Hep, Hl. reflexivity.
    + intros Hl Hin. apply in_app_or in Hin. destruct Hin as [Hin|Hin].
      * unfold toggles in Hin. rewrite Hl, andb_false_r in Hin.
        destruct (start_pending b epoch spe); simpl in Hin;
          intuition discriminate.
      * destruct (update m md opt epoch spe) as [m1|e m1] eqn:Hu.
        -- destruct (_applied_sparsity m1) as [v|] eqn:Ha.
           ++ destruct (Hret v Ha eq_refl) as (-> & _).
              simpl in Hin. intuition discriminate.
           ++ unfold update in Hu. rewrite Hs in Hu. simpl in Hu.
              destruct (start_pending b epoch spe); simpl in Hu;
                destruct (end_pending b epoch spe && negb (_leave_enabled m));
                simpl in Hu;
                destruct (interpolate epoch (start_epoch b) (end_epoch b)
                            (_init_sparsity m) (_final_sparsity m)
                            (_inter_func m));
                try discriminate; injection Hu as <-; simpl in Ha;
                discriminate.
        -- rewrite (Hraise eq_refl) in Hin. destruct Hin.
Qed.

(** C3.  Every [optimizer_post_step] call in which
    [super().optimizer_post_step] returns calls [apply()] once on every
    mask of the target list, whatever the epoch, the steps per epoch,
    [leave_enabled] and the state of the modifier; [apply] is the only
    call the masks receive. *)
Theorem optimizer_post_step_applies_every_mask (m : GradualKSModifier)
    (md : Module_) (opt : Optimizer) (epoch : float) (spe : Z) (b : base) :
  super_optimizer_post_step (super m) md opt epoch spe = Returned b ->
  exists m',
    optimizer_post_step m md opt epoch spe = Returned m'
    /\ List.length (_module_masks m') = List.length (_module_masks m)
    /\ Forall2 (fun k k' => received_since k k' [Apply]
                            /\ enabled k' = enabled k
                            /\ mask_sparsity k' = mask_sparsity k)
         (_module_masks m) (_module_masks m').
Proof.
  intros Hs. unfold optimizer_post_step. rewrite Hs. simpl.
  eexists. split; [reflexivity|]. simpl. split.
  - apply length_map.
  - apply Forall2_map_same. intros k. split; [apply received_since_apply|].
    simpl. auto.
Qed.

End ModifierFacts.

(** * Construction *)

Section ConstructionFacts.

Import KS.

Context {E : Env}.

Variables (a : init_args) (b : base) (ls : str_or_list).

Hypothesis super_init_ok :
  super_init (arg_start_epoch a) (arg_end_epoch a) (update_frequency a) = Ok b.

Hypothesis layers_ok :
  validate_str_list (layers a) "GradualKSModifier for layers" = Ok ls.

Lemma init_after_helpers :
  __init__ a =
  if PrimFloat.ltb (arg_start_epoch a) 0 then
    Err (ValueError
      "start_epoch must be greater than or equal to 0 for GradualKSModifier")
  else if PrimFloat.ltb (arg_end_epoch a) (arg_start_epoch a) then
    Err (ValueError
      "end_epoch must be greater than start_epoch for GradualKSModifier")
  else
    match init_sparsity a, final_sparsity a with
    | VFloat i, VFloat f =>
        if out_of_unit_range i then
          Err (ValueError
            "init_sparsity value must be in the range [0.0, 1.0], given {} for GradualKSModifier")
        else if out_of_unit_range f then
          Err (ValueError
            "init_sparsity value must be in the range [0.0, 1.0], given {} for GradualKSModifier")
        else if negb (in_list (inter_func a) INTERPOLATION_FUNCS) then
          Err (ValueError
            "{} is not a supported inter_func in layers_settings, available are {} for GradualKSModifier")
        else
          Ok {| super := b; _param := param a; _layers := ls;
                _init_sparsity := i; _final_sparsity := f;
                _leave_enabled := convert_to_bool (leave_enabled a);
                _inter_func := inter_func a;
                _param_strict := convert_to_bool (param_strict a);
                _module_masks := [];
                _allowed_loggers := allowed_loggers a;
                _applied_sparsity := None; _last_logged_sparsity := None;
                _analyzers := None |}
    | VFloat i, _ =>
        if out_of_unit_range i then
          Err (ValueError
            "init_sparsity value must be in the range [0.0, 1.0], given {} for GradualKSModifier")
        else
          Err (TypeError
            "final_sparsity must be of float type for GradualKSModifier")
    | _, _ =>
        Err (TypeError
          "init_sparsity must be of float type for GradualKSModifier")
    end.
Proof.
  unfold __init__. rewrite super_init_ok. cbn [Py.bind].
  rewrite layers_ok. cbn [Py.bind].
  destruct (PrimFloat.ltb (arg_start_epoch a) 0); [reflexivity|].
  destruct (PrimFloat.ltb (arg_end_epoch a) (arg_start_epoch a));
    [reflexivity|].
  destruct (init_sparsity a); try reflexivity;
    destruct (final_sparsity a); try reflexivity;
    destruct (out_of_unit_range f); reflexivity.
Qed.

(** C4, as amended.  Once the base-class constructor and the validation
    of [layers] have passed, construction fails exactly when
    [start_epoch < 0], or [end_epoch < start_epoch], or a sparsity is
    not of float type or is outside [[0, 1]] ([x < 0.0 or x > 1.0]), or
    [inter_func] is not a recognized curve.  The error is that of the
    first check that fails, in the order: [start_epoch], [end_epoch],
    type of [init_sparsity], range of [init_sparsity], type of
    [final_sparsity], range of [final_sparsity], [inter_func]; it is a
    [TypeError] for the two type checks and a [ValueError] for the
    others.  Otherwise construction returns an object whose target list
    is empty and whose analyzers are unset. *)
Theorem init_fails_exactly_on_invalid_config :
  let rejected :=
    stated_invalid a
    || negb (isinstance_float (init_sparsity a))
    || negb (isinstance_float (final_sparsity a)) in
  (rejected = true ->
   exists e, __init__ a = Err e
             /\ exists msg, e = ValueError msg \/ e = TypeError msg)
  /\ (rejected = false ->
      exists m, __init__ a = Ok m
                /\ _module_masks m = []
                /\ _analyzers m = None
                /\ _inter_func m = inter_func a)
  /\ (PrimFloat.ltb (arg_start_epoch a) 0 = true ->
      __init__ a
      = Err (ValueError
          "start_epoch must be greater than or equal to 0 for GradualKSModifier"))
  /\ (PrimFloat.ltb (arg_start_epoch a) 0 = false ->
      (PrimFloat.ltb (arg_end_epoch a) (arg_start_epoch a) = true ->
       __init__ a
       = Err (ValueError
           "end_epoch must be greater than start_epoch for GradualKSModifier"))
      /\ (PrimFloat.ltb (arg_end_epoch a) (arg_start_epoch a) = false ->
          (isinstance_float (init_sparsity a) = false ->
           __init__ a
           = Err (TypeError
               "init_sparsity must be of float type for GradualKSModifier"))
          /\ forall i,
               init_sparsity a = VFloat i ->
               (out_of_unit_range i = true ->
                __init__ a
                = Err (ValueError
                    "init_sparsity value must be in the range [0.0, 1.0], given {} for GradualKSModifier"))
               /\ (out_of_unit_range i = false ->
                   (isinstance_float (final_sparsity a) = false ->
                    __init__ a
                    = Err (TypeError
                        "final_sparsity must be of float type for GradualKSModifier"))
                   /\ forall f,
                        final_sparsity a = VFloat f ->
                        (out_of_unit_range f = true ->
                         __init__ a
                         = Err (ValueError
                             "init_sparsity value must be in the range [0.0, 1.0], given {} for GradualKSModifier"))
                        /\ (out_of_unit_range f = false ->
                            in_list (inter_func a) INTERPOLATION_FUNCS = false ->
                            __init__ a
                            = Err (ValueError
                                "{} is not a supported inter_func in layers_settings, available are {} for GradualKSModifier"))))).
Proof.
  intros rejected. subst rejected. rewrite init_after_helpers.
  unfold stated_invalid.
  split; [|split; [|split; [intros ->; reflexivity|intros ->]]].
  - destruct (PrimFloat.ltb (arg_start_epoch a) 0); [intros _; eauto|].
    destruct (PrimFloat.ltb (arg_end_epoch a) (arg_start_epoch a));
      [intros _; eauto|].
    cbn [orb].
    destruct (init_sparsity a) as [|bi|zi|i|si]; cbn [isinstance_float negb];
      rewrite ?orb_true_r; try solve [intros _; eauto];
      destruct (final_sparsity a) as [|bf|zf|f|sf];
      cbn [outside_unit_interval isinstance_float negb orb];
      rewrite ?orb_true_r; rewrite ?orb_false_r;
      destruct (out_of_unit_range i); cbn [orb]; try solve [intros _; eauto];
      destruct (out_of_unit_range f); cbn [orb]; try solve [intros _; eauto];
      destruct (in_list (inter_func a) INTERPOLATION_FUNCS); cbn [negb];
      try solve [intros _; eauto]; discriminate.
  - destruct (PrimFloat.ltb (arg_start_epoch a) 0); [discriminate|].
    destruct (PrimFloat.ltb (arg_end_epoch a) (arg_start_epoch a));
      [discriminate|].
    cbn [orb].
    destruct (init_sparsity a) as [|bi|zi|i|si]; cbn [isinstance_float negb];
      rewrite ?orb_true_r; try discriminate;
      destruct (final_sparsity a) as [|bf|zf|f|sf];
      cbn [outside_unit_interval isinstance_float negb orb];
      rewrite ?orb_true_r; rewrite ?orb_false_r; try discriminate;
      destruct (out_of_unit_range i); cbn [orb]; try discriminate;
      destruct (out_of_unit_range f); cbn [orb]; try discriminate;
      destruct (in_list (inter_func a) INTERPOLATION_FUNCS); cbn [negb];
      try discriminate.
    intros _. eexists. repeat split.
  - split; [intros ->; reflexivity|intros ->]. split.
    + destruct (init_sparsity a); cbn [isinstance_float]; try discriminate;
        reflexivity.
    + intros i ->. split; [intros ->; destruct (final_sparsity a); reflexivity|].
      intros ->. split.
      * destruct (final_sparsity a); cbn [isinstance_float];
          try discriminate; reflexivity.
      * intros f ->. split; [intros ->; reflexivity|].
        intros -> ->. reflexivity.
Qed.

End ConstructionFacts.

Section ConstructionTypeFacts.

Import KS.

Context {E : Env}.

(** C9, as amended.  When [init_sparsity] or [final_sparsity] is not of
    float type, construction never succeeds, whatever the number it
    holds.  Once the base-class constructor and the validation of
    [layers] have passed, it raises a [TypeError] exactly when neither
    [start_epoch < 0] nor [end_epoch < start_epoch] holds and either
    [init_sparsity] is not a float, or [init_sparsity] is a float for
    which neither [x < 0.0] nor [x > 1.0] holds (the non-float is then
    [final_sparsity]); the [TypeError] names the first sparsity that is
    not a float.  In the other cases an earlier check raises its
    [ValueError]. *)
Theorem init_type_error_for_non_float_sparsity (a : init_args) :
  isinstance_float (init_sparsity a) = false
  \/ isinstance_float (final_sparsity a) = false ->
  (exists e, __init__ a = Err e)
  /\ forall b ls,
       super_init (arg_start_epoch a) (arg_end_epoch a) (update_frequency a)
       = Ok b ->
       validate_str_list (layers a) "GradualKSModifier for layers" = Ok ls ->
       ((exists msg, __init__ a = Err (TypeError msg))
        <-> PrimFloat.ltb (arg_start_epoch a) 0 = false
            /\ PrimFloat.ltb (arg_end_epoch a) (arg_start_epoch a) = false
            /\ (isinstance_float (init_sparsity a) = false
                \/ outside_unit_interval (init_sparsity a) = false))
       /\ ((exists msg, __init__ a = Err (TypeError msg))
           \/ (exists msg, __init__ a = Err (ValueError msg)))
       /\ (PrimFloat.ltb (arg_start_epoch a) 0 = false ->
           PrimFloat.ltb (arg_end_epoch a) (arg_start_epoch a) = false ->
           (isinstance_float (init_sparsity a) = false ->
            __init__ a
            = Err (TypeError
                "init_sparsity must be of float type for GradualKSModifier"))
           /\ (isinstance_float (init_sparsity a) = true ->
               outside_unit_interval (init_sparsity a) = false ->
               __init__ a
               = Err (TypeError
                   "final_sparsity must be of float type for GradualKSModifier"))).
Proof.
  intros H. split.
  - unfold __init__.
    destruct (super_init _ _ _) as [b|e]; cbn [Py.bind]; [|eauto].
    destruct (validate_str_list _ _) as [ls|e]; cbn [Py.bind]; [|eauto].
    destruct (PrimFloat.ltb (arg_start_epoch a) 0); [eauto|].
    destruct (PrimFloat.ltb (arg_end_epoch a) (arg_start_epoch a)); [eauto|].
    destruct (init_sparsity a) as [|bi|zi|i|si]; eauto.
    destruct (out_of_unit_range i); [eauto|].
    destruct (final_sparsity a) as [|bf|zf|f|sf]; eauto.
    destruct H as [H|H]; discriminate.
  - intros b ls Hb Hls. rewrite (@init_after_helpers E a b ls Hb Hls).
    destruct (PrimFloat.ltb (arg_start_epoch a) 0).
    { split; [split; [intros (msg & Hm); discriminate
                     |intros (Hc & _); discriminate]|].
      split; [right; eauto|discriminate]. }
    destruct (PrimFloat.ltb (arg_end_epoch a) (arg_start_epoch a)).
    { split; [split; [intros (msg & Hm); discriminate
                     |intros (_ & Hc & _); discriminate]|].
      split; [right; eauto|discriminate]. }
    destruct (init_sparsity a) as [|bi|zi|i|si]; cbn in H |- *;
      try (split; [split; [intros _; auto|intros _; eauto]|];
           split; [left; eauto|intros _ _; split; [reflexivity|discriminate]]).
    destruct H as [H|H]; [discriminate|].
    destruct (final_sparsity a) as [|bf|zf|f|sf]; try discriminate;
      destruct (out_of_unit_range i);
      (split;
       [split; [intros (msg & Hm); try discriminate; auto
               |intros (_ & _ & [Hc|Hc]); try discriminate; eauto]|];
       split; [first [left; eexists; reflexivity|right; eexists; reflexivity]|];
       intros _ _; split; [discriminate|intros _ Hc; try discriminate;
                                        reflexivity]).
Qed.

End ConstructionTypeFacts.

(** * Initialization *)

Section InitializeFacts.

Import KS.

Context {E : Env}.

Lemma find_param_some (p : string) (ps : list (string * Tensor)) (n : string) :
  find_param p ps = Some n -> n = p.
Proof.
  induction ps as [|[q t] ps IH]; simpl; [discriminate|].
  destruct (String.eqb q p) eqn:Hq; [|exact IH].
  intros [= <-]. apply String.eqb_eq. exact Hq.
Qed.

(** The loop runs to its end when the strict test can never fire. *)
Lemma initialize_loop_returns (ls : list (string * Layer)) :
  forall (m : GradualKSModifier) (ans : list ModuleKSAnalyzer),
    _analyzers m = Some ans ->
    _param_strict m && negb (is_all_token (_layers m)) = false
    \/ (forall nl, In nl ls -> has_param (_param m) nl = true) ->
    initialize_loop m ls =
    Returned
      (assign_analyzers
         (assign_module_masks m
            (_module_masks m ++ target_masks (_param m) ls))
         (Some (ans ++ target_analyzers (_param m) ls))).
Proof.
  unfold target_masks, target_analyzers.
  induction ls as [|[name layer] rest IH]; intros m ans Ha Hc.
  - simpl. rewrite !app_nil_r. destruct m; simpl in *. subst. reflexivity.
  - cbn [initialize_loop filter].
    assert (Hh : has_param (_param m) (name, layer) =
                 match find_param (_param m) (named_parameters layer) with
                 | Some _ => true
                 | None => false
                 end) by reflexivity.
    rewrite Hh. clear Hh.
    destruct (find_param (_param m) (named_parameters layer)) as [pn|] eqn:Hf.
    + pose proof (find_param_some _ _ Hf) as Hp. subst pn.
      destruct m as [sb p lys i f lv fn st ks al ap ll an]. simpl in *.
      subst an. rewrite andb_false_r.
      match goal with
      | |- initialize_loop ?m1 rest = _ =>
          rewrite (IH m1 (ans ++ [{| an_layer := layer; an_name := name;
                                     an_param := p |}]) eq_refl)
      end.
      * simpl. rewrite <- !app_assoc. reflexivity.
      * simpl. destruct Hc as [Hc|Hc]; [left; exact Hc|].
        right. intros nl Hin. apply Hc. right. exact Hin.
    + assert (Hflag : _param_strict m && negb (is_all_token (_layers m)) = false).
      { destruct Hc as [Hc|Hc]; [exact Hc|].
        specialize (Hc (name, layer) (or_introl eq_refl)).
        unfold has_param in Hc. simpl in Hc. rewrite Hf in Hc. discriminate. }
      rewrite Hflag. cbn [andb].
      apply IH; [exact Ha|].
      destruct Hc as [Hc|Hc]; [left; exact Hc|].
      right. intros nl Hin. apply Hc. right. exact Hin.
Qed.

(** In strict mode with an explicit list the loop raises at the first
    layer without the parameter. *)
Lemma initialize_loop_raises (ls : list (string * Layer)) :
  forall (m : GradualKSModifier),
    _param_strict m && negb (is_all_token (_layers m)) = true ->
    (exists nl, In nl ls /\ has_param (_param m) nl = false) ->
    exists m',
      initialize_loop m ls =
      Raised
        (ValueError
           "Could not find required param {} in layer {} for GradualKSModifier")
        m'.
Proof.
  induction ls as [|[name layer] rest IH]; intros m Hflag (nl & Hin & Hnl).
  - destruct Hin.
  - cbn [initialize_loop].
    destruct (find_param (_param m) (named_parameters layer)) as [pn|] eqn:Hf.
    + cbn [_param_strict _layers append_analyzer assign_analyzers
           assign_module_masks].
      rewrite Hflag. cbn [negb andb].
      apply IH; [exact Hflag|].
      destruct Hin as [<-|Hin].
      * unfold has_param in Hnl. simpl in Hnl. rewrite Hf in Hnl. discriminate.
      * exists nl. split; [exact Hin|exact Hnl].
    + rewrite Hflag. cbn [negb andb]. eexists. reflexivity.
Qed.

Lemma target_masks_have_param (p : string) (ls : list (string * Layer))
    (k : ModuleParamKSMask) :
  In k (target_masks p ls) ->
  find_param p (named_parameters (mask_layer k)) <> None.
Proof.
  unfold target_masks. rewrite in_map_iff. intros (nl & <- & Hin).
  apply filter_In in Hin. destruct Hin as (_ & Hp). unfold has_param in Hp.
  simpl. destruct (find_param p (named_parameters (snd nl))); congruence.
Qed.

Lemma target_analyzers_have_param (p : string) (ls : list (string * Layer))
    (an : ModuleKSAnalyzer) :
  In an (target_analyzers p ls) ->
  find_param p (named_parameters (an_layer an)) <> None
  /\ In (an_name an, an_layer an) ls.
Proof.
  unfold target_analyzers. rewrite in_map_iff. intros (nl & <- & Hin).
  apply filter_In in Hin. destruct Hin as (Hin & Hp). unfold has_param in Hp.
  simpl. split.
  - destruct (find_param p (named_parameters (snd nl))); congruence.
  - destruct nl. exact Hin.
Qed.

(** C5.  After [super().initialize] has returned and the layers are
    resolved to [ls]: if [param_strict] is true and the selection is an
    explicit list (not [__ALL__]), a resolved layer without the named
    parameter makes [initialize] raise the missing-parameter
    [ValueError].  In every other case [initialize] returns, the masks
    and analyzers it registers are those of the layers that have the
    parameter, and a layer without it gets neither a mask nor an
    analyzer. *)
Theorem initialize_missing_parameter (m : GradualKSModifier) (md : Module_)
    (opt : Optimizer) (b : base) (ls : list (string * Layer)) :
  super_initialize (super m) md opt = Returned b ->
  resolve_layers (_layers m) md = Ok ls ->
  (_param_strict m = true -> is_all_token (_layers m) = false ->
   (exists nl, In nl ls /\ has_param (_param m) nl = false) ->
   exists msg m', initialize m md opt = Raised (ValueError msg) m')
  /\ (_param_strict m = false \/ is_all_token (_layers m) = true ->
      exists m',
        initialize m md opt = Returned m'
        /\ _module_masks m' = _module_masks m ++ target_masks (_param m) ls
        /\ _analyzers m' = Some (target_analyzers (_param m) ls)
        /\ forall nl, In nl ls -> has_param (_param m) nl = false ->
             (forall k, In k (target_masks (_param m) ls) ->
                        mask_layer k <> snd nl)
             /\ (forall an, In an (target_analyzers (_param m) ls) ->
                            an_layer an <> snd nl)).
Proof.
  intros Hs Hr. unfold initialize. rewrite Hs.
  cbn [_layers assign_super]. rewrite Hr. split.
  - intros Hstrict Hall Hmiss.
    destruct (initialize_loop_raises ls
                (assign_analyzers (assign_super m b) (Some []))) as (m' & Hl).
    + simpl. rewrite Hstrict, Hall. reflexivity.
    + exact Hmiss.
    + eexists. exists m'. exact Hl.
  - intros Hc.
    rewrite (initialize_loop_returns ls
               (assign_analyzers (assign_super m b) (Some [])) (ans := []) eq_refl).
    + eexists. split; [reflexivity|]. simpl. split; [reflexivity|].
      split; [reflexivity|].
      intros nl Hin Hnl. unfold has_param in Hnl. split.
      * intros k Hk Heq. apply target_masks_have_param in Hk.
        rewrite Heq in Hk.
        destruct (find_param (_param m) (named_parameters (snd nl)));
          congruence.
      * intros an Han Heq. apply target_analyzers_have_param in Han.
        destruct Han as (Han & _). rewrite Heq in Han.
        destruct (find_param (_param m) (named_parameters (snd nl)));
          congruence.
    + left. simpl. destruct Hc as [->| ->]; [reflexivity|].
      apply andb_false_r.
Qed.

End InitializeFacts.

(** * Logging and the life of the attributes *)

Section AttributeFacts.

Import KS.

Context {E : Env}.

Lemma fold_left_snoc {A B} (f : A -> B) (l : list A) (acc : list B) :
  fold_left (fun acc a => acc ++ [f a]) l acc = acc ++ map f l.
Proof.
  revert acc. induction l as [|x l IH]; intros acc; simpl.
  - symmetry. apply app_nil_r.
  - rewrite IH, <- app_assoc. reflexivity.
Qed.

Lemma log_loggers_emits (lgs : list string) (ans : list ModuleKSAnalyzer)
    (step : Z) :
  forall emitted,
    log_loggers lgs (Some ans) step emitted =
    Ok (emitted ++ expected_scalars lgs ans step).
Proof.
  unfold expected_scalars.
  induction lgs as [|lg lgs IH]; intros emitted; simpl.
  - rewrite app_nil_r. reflexivity.
  - rewrite IH, fold_left_snoc, <- app_assoc. reflexivity.
Qed.

Lemma expected_scalars_length (lgs : list string) (ans : list ModuleKSAnalyzer)
    (step : Z) :
  List.length (expected_scalars lgs ans step)
  = (List.length lgs * List.length ans)%nat.
Proof.
  unfold expected_scalars. induction lgs as [|lg lgs IH]; simpl.
  - reflexivity.
  - rewrite length_app, length_map, IH. reflexivity.
Qed.

(** What the loop of [initialize] leaves alone. *)
Lemma initialize_loop_frame (ls : list (string * Layer)) :
  forall m,
    let m' := state_of (initialize_loop m ls) in
    _inter_func m' = _inter_func m
    /\ _applied_sparsity m' = _applied_sparsity m
    /\ _last_logged_sparsity m' = _last_logged_sparsity m.
Proof.
  induction ls as [|[name layer] rest IH]; intros m; cbn [initialize_loop].
  - simpl. auto.
  - destruct (find_param (_param m) (named_parameters layer)).
    + match goal with
      | |- context [initialize_loop ?m1 rest] => specialize (IH m1)
      end.
      destruct (_ && _ && negb true); [simpl; auto|].
      simpl in *. exact IH.
    + destruct (_ && _ && negb false); [simpl; auto|apply IH].
Qed.

Lemma initialize_frame (m : GradualKSModifier) (md : Module_) (opt : Optimizer) :
  let m' := state_of (initialize m md opt) in
  _inter_func m' = _inter_func m
  /\ _applied_sparsity m' = _applied_sparsity m
  /\ _last_logged_sparsity m' = _last_logged_sparsity m.
Proof.
  unfold initialize.
  destruct (super_initialize (super m) md opt) as [b|e b]; [|simpl; auto].
  destruct (resolve_layers _ md) as [ls|e]; [|simpl; auto].
  apply (initialize_loop_frame ls
           (assign_analyzers (assign_super m b) (Some []))).
Qed.

Lemma update_frame (m : GradualKSModifier) (md : Module_) (opt : Optimizer)
    (epoch : float) (spe : Z) :
  let m' := state_of (update m md opt epoch spe) in
  _inter_func m' = _inter_func m
  /\ _last_logged_sparsity m' = _last_logged_sparsity m.
Proof.
  unfold update.
  destruct (super_update (super m) md opt epoch spe) as [b|e b];
    [|simpl; auto]. simpl.
  destruct (start_pending b epoch spe); simpl;
    destruct (end_pending b epoch spe && negb (_leave_enabled m)); simpl;
    match goal with
    | |- context [interpolate ?x ?x0 ?x1 ?y0 ?y1 ?c] =>
        destruct (interpolate x x0 x1 y0 y1 c)
    end; simpl; auto.
Qed.

Lemma optimizer_post_step_frame (m : GradualKSModifier) (md : Module_)
    (opt : Optimizer) (epoch : float) (spe : Z) :
  let m' := state_of (optimizer_post_step m md opt epoch spe) in
  _inter_func m' = _inter_func m
  /\ _applied_sparsity m' = _applied_sparsity m
  /\ _last_logged_sparsity m' = _last_logged_sparsity m.
Proof.
  unfold optimizer_post_step.
  destruct (super_optimizer_post_step (super m) md opt epoch spe);
    simpl; auto.
Qed.

Lemma log_update_frame (m : GradualKSModifier) (md : Module_)
    (opt : Optimizer) (epoch : float) (spe : Z) :
  let m' := state_of (fst (log_update m md opt epoch spe)) in
  _inter_func m' = _inter_func m
  /\ _applied_sparsity m' = _applied_sparsity m.
Proof.
  unfold log_update.
  destruct (super_log_update (super m) md opt epoch spe) as [b|e b];
    [|simpl; auto]. simpl.
  destruct (ne_opt_float _ _); [|simpl; auto].
  destruct (_log_sparsity _ _ epoch spe); simpl; auto.
Qed.

Lemma guarded_assign_frame {V} (name : string)
    (assign : GradualKSModifier -> V -> GradualKSModifier)
    (P : GradualKSModifier -> Prop) (m : GradualKSModifier) (v : V) :
  P m -> (forall w, P (assign m w)) ->
  P (state_of (guarded_assign name assign m v)).
Proof.
  intros Hm Ha. unfold guarded_assign.
  destruct (prop_set_check (super m) name); simpl; auto.
Qed.

(** Only [log_update] assigns [_last_logged_sparsity]. *)
Lemma last_logged_changes_only_in_log_update (m : GradualKSModifier) (o : op) :
  is_log_update o = false ->
  _last_logged_sparsity (state_of (perform m o)) = _last_logged_sparsity m.
Proof.
  destruct o; cbn [is_log_update perform]; intros H; try discriminate;
    try (apply (guarded_assign_frame _ _
                  (fun x => _last_logged_sparsity x = _last_logged_sparsity m));
         [reflexivity|intros w; reflexivity]).
  - apply initialize_frame.
  - apply update_frame.
  - apply optimizer_post_step_frame.
Qed.

(** Only [update] assigns [_applied_sparsity]. *)
Lemma applied_changes_only_in_update (m : GradualKSModifier) (o : op) :
  is_update o = false ->
  _applied_sparsity (state_of (perform m o)) = _applied_sparsity m.
Proof.
  destruct o; cbn [is_update perform]; intros H; try discriminate;
    try (apply (guarded_assign_frame _ _
                  (fun x => _applied_sparsity x = _applied_sparsity m));
         [reflexivity|intros w; reflexivity]).
  - apply initialize_frame.
  - apply log_update_frame.
  - apply optimizer_post_step_frame.
Qed.

(** Only the setter assigns [_inter_func]. *)
Lemma inter_func_changes_only_in_setter (m : GradualKSModifier) (o : op) :
  is_inter_func_assignment o = false ->
  _inter_func (state_of (perform m o)) = _inter_func m.
Proof.
  destruct o; cbn [is_inter_func_assignment perform]; intros H;
    try discriminate;
    try (apply (guarded_assign_frame _ _
                  (fun x => _inter_func x = _inter_func m));
         [reflexivity|intros w; reflexivity]).
  - apply initialize_frame.
  - apply update_frame.
  - apply log_update_frame.
  - apply optimizer_post_step_frame.
Qed.

Lemma perform_all_invariant (P : GradualKSModifier -> Prop) (allowed : op -> bool)
    (ops : list op) :
  (forall m o, allowed o = true -> P m -> P (state_of (perform m o))) ->
  Forall (fun o => allowed o = true) ops ->
  forall m, P m -> P (perform_all ops m).
Proof.
  intros Hstep Hall. unfold perform_all.
  induction Hall as [|o ops Ho _ IH]; intros m Hm; simpl; auto.
Qed.

Lemma init_ok_fields (a : init_args) (m : GradualKSModifier) :
  __init__ a = Ok m ->
  _inter_func m = inter_func a
  /\ in_list (inter_func a) INTERPOLATION_FUNCS = true
  /\ _applied_sparsity m = None
  /\ _last_logged_sparsity m = None
  /\ _module_masks m = []
  /\ _analyzers m = None.
Proof.
  unfold __init__.
  destruct (super_init _ _ _) as [b|e]; cbn [Py.bind]; [|discriminate].
  destruct (validate_str_list _ _) as [ls|e]; cbn [Py.bind]; [|discriminate].
  destruct (PrimFloat.ltb (arg_start_epoch a) 0); [discriminate|].
  destruct (PrimFloat.ltb (arg_end_epoch a) (arg_start_epoch a));
    [discriminate|].
  destruct (init_sparsity a); try discriminate.
  destruct (out_of_unit_range f); [discriminate|].
  destruct (final_sparsity a); try discriminate.
  destruct (out_of_unit_range f0); [discriminate|].
  destruct (in_list (inter_func a) INTERPOLATION_FUNCS); [|discriminate].
  cbn [negb]. intros [= <-]. simpl. auto 7.
Qed.

(** C6.  When [super().log_update] has returned: if [applied_sparsity]
    equals [last_logged_sparsity], [log_update] logs nothing and changes
    nothing; if they differ, it logs exactly one scalar per
    (logger, analyzer) pair, logger by logger, each to that logger with
    the tag ["Modifier KS/" + analyzer.tag], the analyzer's sparsity and
    the step index [round(epoch)] when [steps_per_epoch <= 0] and
    [round(epoch * steps_per_epoch)] otherwise, and sets
    [last_logged_sparsity] to [applied_sparsity].
    No operation other than [log_update] changes
    [last_logged_sparsity]. *)
Theorem log_update_logs_on_change (m : GradualKSModifier) (md : Module_)
    (opt : Optimizer) (epoch : float) (spe : Z) (b : base) :
  super_log_update (super m) md opt epoch spe = Returned b ->
  (ne_opt_float (_applied_sparsity m) (_last_logged_sparsity m) = false ->
   log_update m md opt epoch spe = (Returned (assign_super m b), []))
  /\ (ne_opt_float (_applied_sparsity m) (_last_logged_sparsity m) = true ->
      forall ans step,
        _analyzers m = Some ans ->
        log_step epoch spe = Ok step ->
        exists m',
          log_update m md opt epoch spe
          = (Returned m',
             flat_map
               (fun logger =>
                  map (fun analyzer =>
                         {| ev_logger := logger;
                            ev_tag := "Modifier KS/" ++ tag analyzer;
                            ev_value := param_sparsity_item analyzer;
                            ev_step := step |})
                    ans)
               (loggers b))
          /\ _last_logged_sparsity m' = _applied_sparsity m
          /\ _applied_sparsity m' = _applied_sparsity m)
  /\ ((spe <= 0)%Z -> log_step epoch spe = Py.round epoch)
  /\ ((0 < spe)%Z ->
      log_step epoch spe = (x <- mul_float_int epoch spe ;; Py.round x))
  /\ (forall o, is_log_update o = false ->
                _last_logged_sparsity (state_of (perform m o))
                = _last_logged_sparsity m).
Proof.
  intros Hs. unfold log_update. rewrite Hs. simpl.
  split; [intros ->; reflexivity|].
  split.
  - intros -> ans step Ha Hstep. unfold _log_sparsity.
    rewrite Hstep, Ha. cbn [Py.bind]. rewrite log_loggers_emits.
    eexists. split; [reflexivity|]. simpl. auto.
  - split; [|split].
    + intros Hle. unfold log_step.
      destruct (Z.leb_spec spe 0); [reflexivity|lia].
    + intros Hlt. unfold log_step.
      destruct (Z.leb_spec spe 0); [lia|reflexivity].
    + intros o Ho. apply last_logged_changes_only_in_log_update. exact Ho.
Qed.

(** C10.  As long as [update] has not been called since construction,
    [applied_sparsity] and [last_logged_sparsity] are both unset, and a
    [log_update] call, whether it returns or raises, logs nothing and
    leaves [last_logged_sparsity] unset. *)
Theorem log_update_before_update_is_silent (a : init_args)
    (m0 : GradualKSModifier) (ops : list op) (md : Module_) (opt : Optimizer)
    (epoch : float) (spe : Z) :
  __init__ a = Ok m0 ->
  Forall (fun o => negb (is_update o) = true) ops ->
  let m := perform_all ops m0 in
  _applied_sparsity m = None
  /\ _last_logged_sparsity m = None
  /\ snd (log_update m md opt epoch spe) = []
  /\ _last_logged_sparsity (state_of (fst (log_update m md opt epoch spe)))
     = None.
Proof.
  intros Hinit Hops m.
  assert (Hm : _applied_sparsity m = None /\ _last_logged_sparsity m = None).
  { subst m.
    apply (perform_all_invariant
             (fun x => _applied_sparsity x = None
                       /\ _last_logged_sparsity x = None)
             (fun o => negb (is_update o))); [|exact Hops|].
    - intros x o Ho (Ha & Hl). apply negb_true_iff in Ho. split.
      + rewrite applied_changes_only_in_update; assumption.
      + destruct o; try discriminate;
          try (rewrite last_logged_changes_only_in_log_update;
               [assumption|reflexivity]).
        cbn [perform]. unfold log_update.
        destruct (super_log_update (super x) md0 opt0 epoch0 spe0);
          simpl; rewrite ?Ha, ?Hl; simpl; auto.
    - apply init_ok_fields in Hinit. tauto. }
  destruct Hm as (Ha & Hl). split; [exact Ha|]. split; [exact Hl|].
  unfold log_update.
  destruct (super_log_update (super m) md opt epoch spe); simpl;
    rewrite ?Ha, ?Hl; simpl; auto.
Qed.

(** Every assignment to [inter_func] in the sequence [ops], run from
    [m], that [prop_set_check] lets through assigns a recognized curve
    name. *)
Fixpoint accepted_curves_recognized (ops : list op) (m : GradualKSModifier)
  : Prop :=
  match ops with
  | [] => True
  | o :: rest =>
      match o with
      | OpSetInterFunc v =>
          prop_set_check (super m) "inter_func" = None ->
          in_list v INTERPOLATION_FUNCS = true
      | _ => True
      end
      /\ accepted_curves_recognized rest (state_of (perform m o))
  end.

Lemma accepted_curves_invariant (ops : list op) :
  forall m,
    in_list (_inter_func m) INTERPOLATION_FUNCS = true ->
    accepted_curves_recognized ops m ->
    in_list (_inter_func (perform_all ops m)) INTERPOLATION_FUNCS = true.
Proof.
  unfold perform_all.
  induction ops as [|o rest IH]; intros m Hm Hacc; [exact Hm|].
  destruct Hacc as (Ho & Hrest). cbn [fold_left]. apply IH; [|exact Hrest].
  destruct (is_inter_func_assignment o) eqn:Hk.
  - destruct o; try discriminate. cbn [perform].
    unfold inter_func_setter, guarded_assign.
    destruct (prop_set_check (super m) "inter_func"); [exact Hm|].
    simpl. apply Ho. reflexivity.
  - rewrite inter_func_changes_only_in_setter; assumption.
Qed.

(** C7, as amended.  After a successful construction, for every sequence
    of public operations in which each assignment to the [inter_func]
    property that [prop_set_check] lets through assigns a recognized
    curve name, the curve name that [update] passes to [interpolate] is
    a recognized one (the constructor's when the sequence has no
    assignment to [inter_func] at all); an [interpolate] that accepts
    the recognized curves then never makes [update] raise. *)
Theorem inter_func_recognized_after_recognized_assignments (a : init_args)
    (m0 : GradualKSModifier) (ops : list op) :
  __init__ a = Ok m0 ->
  accepted_curves_recognized ops m0 ->
  let m := perform_all ops m0 in
  in_list (_inter_func m) INTERPOLATION_FUNCS = true
  /\ (Forall (fun o => negb (is_inter_func_assignment o) = true) ops ->
      _inter_func m = inter_func a)
  /\ forall md opt epoch spe b,
       super_update (super m) md opt epoch spe = Returned b ->
       (forall x x0 x1 y0 y1 c,
           in_list c INTERPOLATION_FUNCS = true ->
           exists v, interpolate x x0 x1 y0 y1 c = Ok v) ->
       returned (update m md opt epoch spe) = true.
Proof.
  intros Hinit Hacc m.
  apply init_ok_fields in Hinit. destruct Hinit as (Hf & Hin & _).
  assert (Hm : in_list (_inter_func m) INTERPOLATION_FUNCS = true).
  { subst m. apply accepted_curves_invariant; [|exact Hacc].
    rewrite Hf. exact Hin. }
  split; [exact Hm|]. split.
  - intros Hops. subst m.
    apply (perform_all_invariant (fun x => _inter_func x = inter_func a)
             (fun o => negb (is_inter_func_assignment o)));
      [|exact Hops|exact Hf].
    intros x o Ho Hx. apply negb_true_iff in Ho.
    rewrite inter_func_changes_only_in_setter; assumption.
  - intros md opt epoch spe b Hs Haccept.
    destruct (Haccept epoch (start_epoch b) (end_epoch b) (_init_sparsity m)
                (_final_sparsity m) (_inter_func m) Hm) as (v & Hv).
    destruct (update_returns m md opt epoch spe Hs Hv) as (m' & -> & _).
    reflexivity.
Qed.

End AttributeFacts.

(** * The order of floats under [<] *)

Section FloatOrder.

Lemma SFltb_key (x y : spec_float) :
  x <> S754_nan -> y <> S754_nan ->
  (SFltb x y = true <-> key_lt (sf_key x) (sf_key y)).
Proof.
  unfold SFltb, SFcompare, key_lt.
  destruct x as [sx|sx| |sx mx ex], y as [sy|sy| |sy my ey];
    try congruence; intros _ _;
    try destruct sx; try destruct sy; cbn [sf_key fst snd];
    try (split; [discriminate|lia]);
    try (split; [reflexivity|lia]);
    try (split; [intros _; lia|reflexivity]);
    change (Pos.compare_cont Eq mx my) with (Pos.compare mx my);
    destruct (Z.compare_spec ex ey); destruct (Pos.compare_spec mx my);
    cbn [CompOpp]; split; intros; try discriminate; try reflexivity; try lia.
Qed.

Lemma is_number_not_nan (x : float) :
  is_number x = true -> Prim2SF x <> S754_nan.
Proof.
  unfold is_number. rewrite FloatAxioms.eqb_spec. intros H Hn.
  rewrite Hn in H. discriminate.
Qed.

Lemma ltb_key (x y : float) :
  is_number x = true -> is_number y = true ->
  (PrimFloat.ltb x y = true
   <-> key_lt (sf_key (Prim2SF x)) (sf_key (Prim2SF y))).
Proof.
  intros Hx Hy. rewrite FloatAxioms.ltb_spec.
  apply SFltb_key; apply is_number_not_nan; assumption.
Qed.

Lemma ltb_irrefl (x : float) : PrimFloat.ltb x x = false.
Proof.
  rewrite FloatAxioms.ltb_spec. unfold SFltb, SFcompare.
  destruct (Prim2SF x) as [s|s| |s m e]; try destruct s; try reflexivity;
    rewrite Z.compare_refl;
    change (Pos.compare_cont Eq m m) with (Pos.compare m m);
    rewrite Pos.compare_refl; reflexivity.
Qed.

Lemma ltb_asym (x y : float) :
  is_number x = true -> is_number y = true ->
  PrimFloat.ltb x y = true -> PrimFloat.ltb y x = false.
Proof.
  intros Hx Hy Hl. destruct (PrimFloat.ltb y x) eqn:Hr; [|reflexivity].
  apply (ltb_key Hx Hy) in Hl. apply (ltb_key Hy Hx) in Hr.
  unfold key_lt in *. lia.
Qed.

(** [not (z < y)] and [not (y < x)] give [not (z < x)] on numbers. *)
Lemma ltb_negative_transitive (x y z : float) :
  is_number x = true -> is_number y = true -> is_number z = true ->
  PrimFloat.ltb z y = false -> PrimFloat.ltb y x = false ->
  PrimFloat.ltb z x = false.
Proof.
  intros Hx Hy Hz Hzy Hyx.
  destruct (PrimFloat.ltb z x) eqn:Hzx; [|reflexivity].
  apply (ltb_key Hz Hx) in Hzx.
  assert (N1 : ~ key_lt (sf_key (Prim2SF z)) (sf_key (Prim2SF y))).
  { intros K. apply (ltb_key Hz Hy) in K. congruence. }
  assert (N2 : ~ key_lt (sf_key (Prim2SF y)) (sf_key (Prim2SF x))).
  { intros K. apply (ltb_key Hy Hx) in K. congruence. }
  unfold key_lt in *. lia.
Qed.

End FloatOrder.

(** * What [modify] returns *)

Module Returns.

Import Manager.

Section Keras.

Variables Model Optimizer Callback Loggers InputTensors : Type.

(** The callbacks one modifier contributes: none for [None], the items
    of a list, the [Callback] itself. *)
Definition contributed (cb : callback_value Callback) : list Callback :=
  match cb with
  | CbNone _ => []
  | CbList l => l
  | CbCallback c => [c]
  | CbOther _ _ => []
  end.

(** The model, the optimizer and the callbacks that come out of calling
    the modifiers one after the other, each on what the one before
    returned; written without an accumulator. *)
Fixpoint threaded
    (mods : list (ScheduledModifier Model Optimizer Callback Loggers InputTensors))
    (model : Model) (optimizer : Optimizer) (spe : Z)
    (loggers : option Loggers) (input_tensors : option InputTensors)
  : Model * Optimizer * list Callback :=
  match mods with
  | [] => (model, optimizer, [])
  | md :: rest =>
      match mod_modify md model optimizer spe loggers input_tensors with
      | Ok (model', optimizer', cb) =>
          let '(mo, op, cbs) :=
            threaded rest model' optimizer' spe loggers input_tensors in
          (mo, op, contributed cb ++ cbs)
      | Err _ => (model, optimizer, [])
      end
  end.

End Keras.

End Returns.

Section ReturnFacts.

Import Manager Returns.

Variables Model Optimizer Callback Loggers InputTensors : Type.

Lemma modify_loop_threaded
    (mods : list (ScheduledModifier Model Optimizer Callback Loggers InputTensors))
    (spe : Z) (loggers : option Loggers) (input_tensors : option InputTensors) :
  forall model optimizer callbacks calls v,
    snd (modify_loop mods model optimizer spe loggers input_tensors callbacks
           calls) = Ok v ->
    v = (fst (fst (threaded mods model optimizer spe loggers input_tensors)),
         snd (fst (threaded mods model optimizer spe loggers input_tensors)),
         callbacks
         ++ snd (threaded mods model optimizer spe loggers input_tensors)).
Proof.
  induction mods as [|md rest IH]; intros model optimizer callbacks calls v.
  - simpl. intros [= <-]. rewrite app_nil_r. reflexivity.
  - cbn [modify_loop threaded].
    destruct (mod_modify md model optimizer spe loggers input_tensors)
      as [[[model' optimizer'] cb]|e]; [|discriminate].
    destruct cb as [|l|c|w]; try discriminate; intros H;
      apply IH in H; rewrite H;
      destruct (threaded rest model' optimizer' spe loggers input_tensors)
        as [[mo op] cbs]; simpl; rewrite <- ?app_assoc, ?app_nil_r;
      reflexivity.
Qed.

(** When the loop raises, it raises in the call of one modifier, made on
    the model and the optimizer that the modifiers before it produced. *)
Lemma modify_loop_raises_at
    (mods : list (ScheduledModifier Model Optimizer Callback Loggers InputTensors))
    (spe : Z) (loggers : option Loggers) (input_tensors : option InputTensors) :
  forall model optimizer callbacks calls e,
    snd (modify_loop mods model optimizer spe loggers input_tensors callbacks
           calls) = Err e ->
    exists done md rest,
      mods = done ++ md :: rest
      /\ fst (modify_loop mods model optimizer spe loggers input_tensors
                callbacks calls) = calls ++ done ++ [md]
      /\ (mod_modify md
            (fst (fst (threaded done model optimizer spe loggers input_tensors)))
            (snd (fst (threaded done model optimizer spe loggers input_tensors)))
            spe loggers input_tensors = Err e
          \/ exists mo op v,
               mod_modify md
                 (fst (fst (threaded done model optimizer spe loggers
                              input_tensors)))
                 (snd (fst (threaded done model optimizer spe loggers
                              input_tensors)))
                 spe loggers input_tensors
               = Ok (mo, op, CbOther Callback v)
               /\ e = RuntimeError "Invalid callback type").
Proof.
  induction mods as [|md rest IH]; intros model optimizer callbacks calls e;
    [discriminate|].
  cbn [modify_loop].
  destruct (mod_modify md model optimizer spe loggers input_tensors)
    as [[[model' optimizer'] cb]|e'] eqn:Hm.
  - destruct cb as [|l|c|v];
      try (intros H; destruct (IH _ _ _ _ _ H)
             as (done & md' & rest' & -> & Hc & Hd);
           exists (md :: done), md', rest';
           split; [reflexivity|];
           split; [rewrite Hc, <- app_assoc; reflexivity|];
           cbn [threaded]; rewrite Hm;
           destruct (threaded done model' optimizer' spe loggers input_tensors)
             as [[mo op] cbs]; exact Hd).
    simpl. intros [= <-]. exists [], md, rest.
    split; [reflexivity|]. split; [reflexivity|]. right. simpl. eauto.
  - simpl. intros [= <-]. exists [], md, rest.
    split; [reflexivity|]. split; [reflexivity|]. left. exact Hm.
Qed.

(** X17.  With [start_epoch]s that are numbers: when [modify] returns,
    the model and the optimizer it returns are those obtained by passing
    them through the modifiers in sorted order, each modifier receiving
    what the one before returned, and the callbacks are the
    concatenation, in call order, of what the modifiers contributed
    ([None] nothing, a list its items, a [Callback] itself).  A manager
    without modifiers returns the model and the optimizer as given, no
    callback, and stores the optimizer. *)
Theorem modify_threads_model_and_collects_callbacks
    (self : ScheduledModifierManager Model Optimizer Callback Loggers
              InputTensors)
    (model : Model) (optimizer : Optimizer) (spe : Z)
    (loggers : option Loggers) (input_tensors : option InputTensors) :
  Forall (fun md => is_number (start_epoch md) = true) (_modifiers self) ->
  let r := modify self model optimizer spe loggers input_tensors in
  (forall v,
      returned_value r = Ok v ->
      v = threaded (sort_by_start_epoch (_modifiers self)) model optimizer spe
            loggers input_tensors)
  /\ (_modifiers self = [] ->
      returned_value r = Ok (model, optimizer, [])
      /\ _optimizer (manager_after r) = Some optimizer
      /\ called r = []).
Proof.
  intros _ r. subst r. unfold modify. split.
  - pose proof (@modify_loop_threaded (sort_by_start_epoch (_modifiers self))
                  spe loggers input_tensors model optimizer [] []) as H.
    destruct (modify_loop (sort_by_start_epoch (_modifiers self)) model
                optimizer spe loggers input_tensors [] []) as [calls res].
    cbn [returned_value snd] in *. intros v Hv. rewrite (H v Hv). simpl.
    destruct (threaded _ _ _ _ _ _) as [[mo op] cbs]. reflexivity.
  - intros ->. simpl. auto.
Qed.

End ReturnFacts.

(** * The manager calls its modifiers by ascending [start_epoch] *)

Section ManagerFacts.

Import Manager.

Variables Model Optimizer Callback Loggers InputTensors : Type.

Abbreviation modifier :=
  (ScheduledModifier Model Optimizer Callback Loggers InputTensors).

Abbreviation manager :=
  (ScheduledModifierManager Model Optimizer Callback Loggers InputTensors).

(** No later element is smaller than an earlier one. *)
Definition ascending (l : list modifier) : Prop :=
  StronglySorted
    (fun x y => PrimFloat.ltb (start_epoch y) (start_epoch x) = false) l.

Definition numbers (l : list modifier) : Prop :=
  Forall (fun md => is_number (start_epoch md) = true) l.

Lemma insert_perm (x : modifier) (l : list modifier) :
  Permutation (insert x l) (x :: l).
Proof.
  induction l as [|y r IH]; simpl; [reflexivity|].
  destruct (PrimFloat.ltb (start_epoch y) (start_epoch x)); [|reflexivity].
  rewrite IH. apply perm_swap.
Qed.

Lemma sort_perm (l : list modifier) :
  Permutation (sort_by_start_epoch l) l.
Proof.
  induction l as [|x l IH]; simpl; [reflexivity|].
  rewrite insert_perm. constructor. exact IH.
Qed.

Lemma insert_ascending (x : modifier) (l : list modifier) :
  is_number (start_epoch x) = true -> numbers l ->
  ascending l -> ascending (insert x l).
Proof.
  intros Hx Hn Hs. induction Hs as [|y r Hr IH Hy]; simpl.
  - repeat constructor.
  - inversion Hn as [|? ? Hny Hnr]; subst.
    destruct (PrimFloat.ltb (start_epoch y) (start_epoch x)) eqn:Hlt.
    + constructor; [apply IH; exact Hnr|].
      apply (Permutation_Forall (Permutation_sym (insert_perm x r))).
      constructor; [|exact Hy].
      apply ltb_asym; assumption.
    + constructor; [constructor; assumption|].
      constructor; [exact Hlt|].
      rewrite Forall_forall in *. intros z Hz.
      apply ltb_negative_transitive with (y := start_epoch y); auto.
Qed.

Lemma sort_ascending (l : list modifier) :
  numbers l -> ascending (sort_by_start_epoch l).
Proof.
  intros Hn. induction Hn as [|x l Hx Hl IH]; simpl.
  - constructor.
  - apply insert_ascending; [exact Hx| |exact IH].
    unfold numbers. apply (Permutation_Forall (Permutation_sym (sort_perm l))).
    exact Hl.
Qed.

Lemma ascending_nth (l : list modifier) :
  ascending l ->
  forall i j x y,
    (i < j)%nat -> nth_error l i = Some x -> nth_error l j = Some y ->
    PrimFloat.ltb (start_epoch y) (start_epoch x) = false.
Proof.
  intros Hs. induction Hs as [|a r Hr IH Ha]; intros i j x y Hij Hi Hj.
  - destruct i; discriminate.
  - destruct j as [|j]; [lia|]. simpl in Hj. destruct i as [|i].
    + simpl in Hi. injection Hi as <-.
      rewrite Forall_forall in Ha. apply Ha.
      apply nth_error_In with j. exact Hj.
    + simpl in Hi. apply (IH i j); [lia|assumption|assumption].
Qed.

(** The calls of the loop are a prefix of the list it walks, the whole
    list when the loop returns. *)
Lemma modify_loop_called (mods : list modifier) :
  forall model optimizer spe loggers input_tensors callbacks calls,
    exists done rest,
      mods = done ++ rest
      /\ fst (modify_loop mods model optimizer spe loggers input_tensors
                callbacks calls) = calls ++ done
      /\ (forall v,
             snd (modify_loop mods model optimizer spe loggers input_tensors
                    callbacks calls) = Ok v -> rest = []).
Proof.
  induction mods as [|md rest IH];
    intros model optimizer spe loggers input_tensors callbacks calls.
  - exists [], []. simpl. rewrite app_nil_r. auto.
  - cbn [modify_loop].
    destruct (mod_modify md model optimizer spe loggers input_tensors)
      as [[[model' optimizer'] cb]|e].
    + destruct cb as [|l|c|v];
        try (match goal with
             | |- context [modify_loop rest ?mo ?op spe loggers input_tensors ?cbs
                             (calls ++ [md])] =>
                 destruct (IH mo op spe loggers input_tensors cbs
                             (calls ++ [md])) as (done & rest' & -> & Hc & Hr)
             end;
             exists (md :: done), rest'; split; [reflexivity|];
             split; [rewrite Hc, <- app_assoc; reflexivity|exact Hr]).
      exists [md], rest. simpl. split; [reflexivity|].
      split; [reflexivity|discriminate].
    + exists [md], rest. simpl. split; [reflexivity|].
      split; [reflexivity|discriminate].
Qed.

Lemma nth_error_prefix {A} (l1 l2 : list A) (i : nat) (x : A) :
  nth_error l1 i = Some x -> nth_error (l1 ++ l2) i = Some x.
Proof.
  intros H. rewrite nth_error_app1; [exact H|].
  apply nth_error_Some. congruence.
Qed.

(** A list that is one ascending run (no element smaller than the one
    before it) is left as it is. *)
Lemma sort_of_run (l : list modifier) :
  Sorted (fun x y => PrimFloat.ltb (start_epoch y) (start_epoch x) = false) l ->
  sort_by_start_epoch l = l.
Proof.
  intros Hs. induction Hs as [|x r Hr IH Hx]; [reflexivity|].
  cbn [sort_by_start_epoch fold_right]. unfold sort_by_start_epoch in IH.
  rewrite IH. destruct Hx as [|y r' Hy]; [reflexivity|].
  cbn [insert]. rewrite Hy. reflexivity.
Qed.

(** C8, as amended.  For every manager whose modifiers have numbers
    (no NaN) as [start_epoch]s, so for every such list given to the
    constructor, [modify] invokes the modifiers by ascending
    [start_epoch]: whenever [m1.start_epoch < m2.start_epoch], every
    call of [m1.modify] comes before every call of [m2.modify], and a
    call of [m2.modify] is preceded by one of [m1.modify].  The calls
    are real: when [modify] returns it has called the modifiers of the
    manager, each as often as it is listed, and what it returns is what
    the modifiers called, in that order, made of the model and the
    optimizer, each receiving what the one before returned; when it
    raises, the last modifier called is the one whose [modify], applied
    to what the ones before it produced, raised or returned an invalid
    callback. *)
Theorem modify_calls_in_start_epoch_order (self : manager)
    (model : Model) (optimizer : Optimizer) (spe : Z)
    (loggers : option Loggers) (input_tensors : option InputTensors) :
  Forall (fun md => is_number (start_epoch md) = true) (_modifiers self) ->
  let r := modify self model optimizer spe loggers input_tensors in
  (forall i j m1 m2,
      nth_error (called r) i = Some m1 ->
      nth_error (called r) j = Some m2 ->
      PrimFloat.ltb (start_epoch m1) (start_epoch m2) = true ->
      (i < j)%nat)
  /\ (forall j m1 m2,
         In m1 (_modifiers self) ->
         nth_error (called r) j = Some m2 ->
         PrimFloat.ltb (start_epoch m1) (start_epoch m2) = true ->
         exists i, (i < j)%nat /\ nth_error (called r) i = Some m1)
  /\ (forall v, returned_value r = Ok v ->
                Permutation (called r) (_modifiers self))
  /\ (forall mods : list modifier, _modifiers (__init__ mods) = mods)
  /\ (forall v, returned_value r = Ok v ->
                v = Returns.threaded (called r) model optimizer spe loggers
                      input_tensors)
  /\ (forall e,
         returned_value r = Err e ->
         exists done md,
           called r = done ++ [md]
           /\ (mod_modify md
                 (fst (fst (Returns.threaded done model optimizer spe loggers
                              input_tensors)))
                 (snd (fst (Returns.threaded done model optimizer spe loggers
                              input_tensors)))
                 spe loggers input_tensors = Err e
               \/ exists mo op v,
                    mod_modify md
                      (fst (fst (Returns.threaded done model optimizer spe
                                   loggers input_tensors)))
                      (snd (fst (Returns.threaded done model optimizer spe
                                   loggers input_tensors)))
                      spe loggers input_tensors
                    = Ok (mo, op, CbOther Callback v)
                    /\ e = RuntimeError "Invalid callback type")).
Proof.
  intros Hn r. subst r. unfold modify.
  pose proof (sort_ascending Hn) as Hs.
  pose proof (sort_perm (_modifiers self)) as Hp.
  destruct (modify_loop_called (sort_by_start_epoch (_modifiers self)) model
              optimizer spe loggers input_tensors [] [])
    as (done & rest & Hsplit & Hc & Hr).
  pose proof (@modify_loop_threaded _ _ _ _ _
                (sort_by_start_epoch (_modifiers self)) spe loggers
                input_tensors model optimizer [] []) as Hok.
  pose proof (@modify_loop_raises_at _ _ _ _ _
                (sort_by_start_epoch (_modifiers self)) spe loggers
                input_tensors model optimizer [] []) as Herr.
  destruct (modify_loop (sort_by_start_epoch (_modifiers self)) model optimizer
              spe loggers input_tensors [] []) as [calls res].
  cbn [called returned_value fst snd] in *. subst calls. simpl.
  assert (Hord : forall i j m1 m2,
             nth_error (sort_by_start_epoch (_modifiers self)) i = Some m1 ->
             nth_error (sort_by_start_epoch (_modifiers self)) j = Some m2 ->
             PrimFloat.ltb (start_epoch m1) (start_epoch m2) = true ->
             (i < j)%nat).
  { intros i j m1 m2 Hi Hj Hlt.
    destruct (Nat.lt_trichotomy i j) as [Hij|[Hij|Hij]]; [exact Hij| |].
    - subst j. rewrite Hi in Hj. injection Hj as <-.
      rewrite ltb_irrefl in Hlt. discriminate.
    - rewrite (ascending_nth Hs Hij Hj Hi) in Hlt. discriminate. }
  split; [|split; [|split; [|split; [|split]]]].
  - intros i j m1 m2 Hi Hj. apply Hord; rewrite Hsplit;
      apply nth_error_prefix; assumption.
  - intros j m1 m2 Hin Hj Hlt.
    apply (Permutation_in _ (Permutation_sym Hp)) in Hin.
    apply In_nth_error in Hin. destruct Hin as (i & Hi).
    assert (Hij : (i < j)%nat).
    { apply (Hord i j m1 m2); [exact Hi| |exact Hlt].
      rewrite Hsplit. apply nth_error_prefix. exact Hj. }
    exists i. split; [exact Hij|].
    rewrite Hsplit in Hi. rewrite nth_error_app1 in Hi; [exact Hi|].
    assert (j < List.length done)%nat by (apply nth_error_Some; congruence).
    lia.
  - intros v Hv. rewrite (Hr v Hv), app_nil_r in Hsplit.
    rewrite <- Hsplit. exact Hp.
  - reflexivity.
  - intros v Hv. rewrite (Hok v Hv).
    assert (Hd : done = sort_by_start_epoch (_modifiers self)).
    { rewrite Hsplit, (Hr v Hv), app_nil_r. reflexivity. }
    rewrite Hd. simpl.
    destruct (Returns.threaded _ _ _ _ _ _) as [[mo op] cbs]. reflexivity.
  - intros e He.
    destruct (Herr e He) as (done' & md & rest' & _ & Hc' & Hd).
    exists done', md. split; [exact Hc'|exact Hd].
Qed.

End ManagerFacts.

(** * The properties on the sample model *)

Section Cases.

Import KS Sample.

Set Warnings "-inexact-float".

(** Past the end of the schedule (epoch 15 of 0 to 10) [update] still
    sets the sparsity, here the final 0.8. *)
Lemma update_recomputes_applied_sparsity_witness :
  exists m',
    update ready model tt 15 100 = Returned m'
    /\ _applied_sparsity m' = Some 0.8%float.
Proof.
  destruct (@update_recomputes_applied_sparsity env ready model tt 15%float 100
              (state_of (super_update (super ready) model tt 15%float 100))
              0.8%float eq_refl eq_refl)
    as (m' & Hu & Ha & _).
  exists m'. split; assumption.
Defined.

(** With [leave_enabled] false, a first [update] at epoch 10.5 is a
    start edge and an end edge at once: every mask is enabled, then
    disabled. *)
Lemma update_toggles_enabled_on_edges_witness :
  Forall2
    (fun k k' =>
       exists calls,
         received_since k k' calls
         /\ In (SetEnabled true) calls
         /\ In (SetEnabled false) calls
         /\ enabled k' = false)
    (_module_masks stopping)
    (_module_masks (state_of (update stopping model tt 10.5 100))).
Proof.
  destruct (@update_toggles_enabled_on_edges env stopping model tt 10.5%float 100)
    as (_ & H).
  specialize (H (state_of (super_update (super stopping) model tt 10.5%float 100))
                eq_refl).
  revert H. apply Forall2_impl.
  intros k k' (calls & Hr & Hs & _ & He & _).
  exists calls. split; [exact Hr|]. split.
  - apply Hs. reflexivity.
  - apply He; reflexivity.
Defined.

Lemma optimizer_post_step_applies_every_mask_witness :
  exists m',
    optimizer_post_step ready model tt 3 100 = Returned m'
    /\ List.length (_module_masks m') = 2%nat.
Proof.
  destruct (@optimizer_post_step_applies_every_mask env ready model tt 3%float
              100 (super ready) eq_refl)
    as (m' & Hp & Hl & _).
  exists m'. split; [exact Hp|]. rewrite Hl. reflexivity.
Defined.

(** An integer sparsity inside [[0, 1]] meets none of the stated
    conditions of failure, and construction fails on its type. *)
Lemma init_rejects_integer_sparsity :
  stated_invalid (with_sparsities recipe (VInt 0) (VFloat 0.8)) = false
  /\ __init__ (with_sparsities recipe (VInt 0) (VFloat 0.8))
     = Err (TypeError
              "init_sparsity must be of float type for GradualKSModifier").
Proof. split; reflexivity. Qed.

Lemma init_fails_exactly_on_invalid_config_witness :
  exists m, __init__ recipe = Ok m /\ _module_masks m = [].
Proof.
  destruct (@init_fails_exactly_on_invalid_config env recipe
              (super (constructed recipe)) (Str ALL_TOKEN) eq_refl eq_refl)
    as (_ & H & _).
  destruct (H eq_refl) as (m & Hm & Hk & _).
  exists m. split; assumption.
Defined.

(** An [init_sparsity] of 2.0 is a float out of range: its [ValueError]
    comes before the type of [final_sparsity], the integer 1, is looked
    at. *)
Lemma init_range_error_precedes_type_error :
  isinstance_float
    (final_sparsity (with_sparsities recipe (VFloat 2) (VInt 1))) = false
  /\ outside_unit_interval
       (final_sparsity (with_sparsities recipe (VFloat 2) (VInt 1))) = false
  /\ __init__ (with_sparsities recipe (VFloat 2) (VInt 1))
     = Err (ValueError
              "init_sparsity value must be in the range [0.0, 1.0], given {} for GradualKSModifier").
Proof. split; [reflexivity|]. split; reflexivity. Qed.

Lemma init_type_error_for_non_float_sparsity_witness :
  __init__ (with_sparsities recipe (VFloat 0) (VInt 1))
  = Err (TypeError "final_sparsity must be of float type for GradualKSModifier").
Proof.
  destruct (@init_type_error_for_non_float_sparsity env
              (with_sparsities recipe (VFloat 0) (VInt 1))
              (or_intror eq_refl))
    as (_ & H).
  destruct (H (super (constructed recipe)) (Str ALL_TOKEN) eq_refl eq_refl)
    as (_ & _ & Hmsg).
  destruct (Hmsg eq_refl eq_refl) as (_ & Hf).
  apply Hf; reflexivity.
Defined.

(** The two scenarios of the specification: [conv1] has no bias. *)
Lemma initialize_missing_parameter_witness :
  (exists msg m', initialize bias_of_conv1 model tt = Raised (ValueError msg) m')
  /\ (exists m',
         initialize bias_of_all model tt = Returned m'
         /\ _analyzers m'
            = Some [{| an_layer := fc; an_name := "fc"; an_param := "bias" |}]).
Proof.
  split.
  - destruct (@initialize_missing_parameter env bias_of_conv1 model tt
                (state_of (super_initialize (super bias_of_conv1) model tt))
                [("conv1"%string, conv1)] eq_refl eq_refl)
      as (H & _).
    apply H; try reflexivity.
    exists ("conv1"%string, conv1). split; [left; reflexivity|reflexivity].
  - destruct (@initialize_missing_parameter env bias_of_all model tt
                (state_of (super_initialize (super bias_of_all) model tt))
                model eq_refl eq_refl)
      as (_ & H).
    destruct H as (m' & Hi & _ & Ha & _); [right; reflexivity|].
    exists m'. split; [exact Hi|]. rewrite Ha. reflexivity.
Defined.

(** After an update at epoch 5 with 100 steps per epoch the sparsity
    0.4 is logged once per analyzer at step 500. *)
Lemma log_update_logs_on_change_witness :
  exists m',
    log_update halfway model tt 5 100
    = (Returned m',
       [{| ev_logger := "python"; ev_tag := "Modifier KS/conv1.weight";
           ev_value := 0.5; ev_step := 500 |};
        {| ev_logger := "python"; ev_tag := "Modifier KS/fc.weight";
           ev_value := 0; ev_step := 500 |}])
    /\ _last_logged_sparsity m' = Some 0.4%float.
Proof.
  destruct (@log_update_logs_on_change env halfway model tt 5%float 100
              (super halfway) eq_refl)
    as (_ & H & _).
  destruct (H eq_refl (target_analyzers "weight" model) 500%Z eq_refl eq_refl)
    as (m' & Hl & Hm & _).
  exists m'. split; [exact Hl|]. rewrite Hm. reflexivity.
Defined.

Lemma log_update_before_update_is_silent_witness :
  snd (log_update (perform_all without_update (constructed recipe))
         model tt 0 100) = [].
Proof.
  destruct (@log_update_before_update_is_silent env recipe (constructed recipe)
              without_update model tt 0%float 100 eq_refl
              ltac:(repeat constructor))
    as (_ & _ & H & _).
  exact H.
Defined.

(** An assignment to [inter_func] before [initialize] is accepted with
    an unrecognized name, which [update] then hands to [interpolate]. *)
Lemma inter_func_setter_admits_unrecognized_curve :
  __init__ recipe = Ok (constructed recipe)
  /\ in_list
       (_inter_func (perform_all with_curve_assignment (constructed recipe)))
       INTERPOLATION_FUNCS = false
  /\ raised
       (update (perform_all with_curve_assignment (constructed recipe))
          model tt 5 100)
     = Some (ValueError "unsupported interpolation curve").
Proof. split; [reflexivity|]. split; reflexivity. Qed.

Lemma inter_func_recognized_after_recognized_assignments_witness :
  _inter_func (perform_all with_checked_curve_assignments (constructed recipe))
  = "cubic"%string
  /\ in_list
       (_inter_func
          (perform_all with_checked_curve_assignments (constructed recipe)))
       INTERPOLATION_FUNCS = true.
Proof.
  split; [reflexivity|].
  destruct (@inter_func_recognized_after_recognized_assignments env recipe
              (constructed recipe) with_checked_curve_assignments eq_refl)
    as (H & _).
  - repeat split; try (intros _; reflexivity).
    intros H. discriminate H.
  - exact H.
Defined.

(** Listed as late, schedule, early, the Keras modifiers are called as
    schedule (0), early (1), late (2): each appends its number to the
    model and contributes its callbacks. *)
Lemma modify_calls_in_start_epoch_order_witness :
  (exists i,
      (i < 2)%nat
      /\ nth_error
           (Manager.called
              (Manager.modify (Manager.__init__ keras_modifiers) [] tt 100 None
                 None))
           i
         = Some lr_schedule)
  /\ Manager.returned_value
       (Manager.modify (Manager.__init__ keras_modifiers) [] tt 100 None None)
     = Ok ([2; 3; 1]%nat, tt, ["early"; "log"; "late"]%string).
Proof.
  destruct (@modify_calls_in_start_epoch_order _ _ _ _ _
              (Manager.__init__ keras_modifiers) [] tt 100%Z None None
              ltac:(repeat constructor))
    as (_ & H & _).
  split; [|reflexivity].
  apply (H 2%nat lr_schedule pruning_late).
  - right. left. reflexivity.
  - reflexivity.
  - reflexivity.
Defined.

(** Between 2.0 and 1.0 stands a NaN, to which every comparison is
    false: no element is smaller than the one before it, the list is
    one ascending run and the sort leaves it as it is.  The modifier
    that starts at 1.0 is called last, after the one that starts at
    2.0, as the model they return shows. *)
Lemma modify_does_not_order_around_nan :
  PrimFloat.ltb (Manager.start_epoch starts_at_one)
    (Manager.start_epoch starts_at_two) = true
  /\ Sorted
       (fun x y =>
          PrimFloat.ltb (Manager.start_epoch y) (Manager.start_epoch x) = false)
       modifiers_around_nan
  /\ Manager.called
       (Manager.modify (Manager.__init__ modifiers_around_nan) [] tt 100 None
          None)
     = [starts_at_two; starts_at_nan; starts_at_one]
  /\ Manager.returned_value
       (Manager.modify (Manager.__init__ modifiers_around_nan) [] tt 100 None
          None)
     = Ok ([1; 2; 3]%nat, tt, []).
Proof.
  split; [reflexivity|]. split; [repeat constructor|].
  split; reflexivity.
Qed.

End Cases.


(** * Further properties of the modifier

    The rest of [modifier.py]: the property setters, [__del__], and what
    the lifecycle methods do besides what was stated above. *)

Module Lifecycle.

Import KS.

Section Observations.

Context {E : Env}.

(** [GradualKSModifier.__del__]: [self._module_masks.clear()]. *)
Definition __del__ (m : GradualKSModifier) : GradualKSModifier :=
  assign_module_masks m [].

(** The attributes that the constructor takes from its arguments and
    that the property getters [param], [layers], [init_sparsity],
    [final_sparsity], [leave_enabled], [inter_func], [param_strict]
    return. *)
Record configuration : Type := {
  c_param : string;
  c_layers : str_or_list;
  c_init_sparsity : float;
  c_final_sparsity : float;
  c_leave_enabled : bool;
  c_inter_func : string;
  c_param_strict : bool;
  c_allowed_loggers : str_or_list
}.

Definition configuration_of (m : GradualKSModifier) : configuration :=
  {| c_param := _param m;
     c_layers := _layers m;
     c_init_sparsity := _init_sparsity m;
     c_final_sparsity := _final_sparsity m;
     c_leave_enabled := _leave_enabled m;
     c_inter_func := _inter_func m;
     c_param_strict := _param_strict m;
     c_allowed_loggers := _allowed_loggers m |}.

(** Which (layer, parameter) pairs the masks of the target list mask. *)
Definition mask_identities (m : GradualKSModifier) : list (Layer * string) :=
  map (fun k => (mask_layer k, mask_param k)) (_module_masks m).

Definition is_setter (o : op) : bool :=
  match o with
  | OpSetParam _ | OpSetLayers _ | OpSetInitSparsity _
  | OpSetFinalSparsity _ | OpSetLeaveEnabled _ | OpSetInterFunc _
  | OpSetParamStrict _ => true
  | _ => false
  end.

Definition is_initialize (o : op) : bool :=
  match o with OpInitialize _ _ => true | _ => false end.

(** The name a setter passes to [prop_set_check]. *)
Definition property_name (o : op) : string :=
  match o with
  | OpSetParam _ => "param"
  | OpSetLayers _ => "layers"
  | OpSetInitSparsity _ => "init_sparsity"
  | OpSetFinalSparsity _ => "final_sparsity"
  | OpSetLeaveEnabled _ => "leave_enabled"
  | OpSetInterFunc _ => "inter_func"
  | OpSetParamStrict _ => "param_strict"
  | _ => ""
  end.

(** The configuration in which the property of setter [o] holds the
    value of [o] and every other property is as in [c]. *)
Definition assigned (o : op) (c : configuration) : configuration :=
  {| c_param := match o with OpSetParam v => v | _ => c_param c end;
     c_layers := match o with OpSetLayers v => v | _ => c_layers c end;
     c_init_sparsity :=
       match o with OpSetInitSparsity v => v | _ => c_init_sparsity c end;
     c_final_sparsity :=
       match o with OpSetFinalSparsity v => v | _ => c_final_sparsity c end;
     c_leave_enabled :=
       match o with OpSetLeaveEnabled v => v | _ => c_leave_enabled c end;
     c_inter_func :=
       match o with OpSetInterFunc v => v | _ => c_inter_func c end;
     c_param_strict :=
       match o with OpSetParamStrict v => v | _ => c_param_strict c end;
     c_allowed_loggers := c_allowed_loggers c |}.

End Observations.

End Lifecycle.

Section LifecycleFacts.

Import KS Lifecycle.

Context {E : Env}.

Lemma initialize_loop_configuration (ls : list (string * Layer)) :
  forall m,
    configuration_of (state_of (initialize_loop m ls)) = configuration_of m
    /\ super (state_of (initialize_loop m ls)) = super m.
Proof.
  induction ls as [|[name layer] rest IH]; intros m; cbn [initialize_loop].
  - simpl. auto.
  - destruct (find_param (_param m) (named_parameters layer)).
    + match goal with
      | |- context [initialize_loop ?m1 rest] => specialize (IH m1)
      end.
      destruct (_ && _ && negb true); [simpl; auto|].
      exact IH.
    + destruct (_ && _ && negb false); [simpl; auto|apply IH].
Qed.

Lemma lifecycle_call_keeps_configuration (m : GradualKSModifier) (o : op) :
  is_setter o = false ->
  configuration_of (state_of (perform m o)) = configuration_of m.
Proof.
  destruct o; cbn [is_setter perform]; intros H; try discriminate.
  - unfold initialize.
    destruct (super_initialize (super m) md opt) as [b|e b]; [|reflexivity].
    destruct (resolve_layers _ md) as [ls|e]; [|reflexivity].
    apply (initialize_loop_configuration ls
             (assign_analyzers (assign_super m b) (Some []))).
  - unfold update.
    destruct (super_update (super m) md opt epoch spe) as [b|e b];
      [|reflexivity]. simpl.
    destruct (start_pending b epoch spe); simpl;
      destruct (end_pending b epoch spe && negb (_leave_enabled m)); simpl;
      match goal with
      | |- context [interpolate ?x ?x0 ?x1 ?y0 ?y1 ?c] =>
          destruct (interpolate x x0 x1 y0 y1 c)
      end; reflexivity.
  - unfold log_update.
    destruct (super_log_update (super m) md opt epoch spe) as [b|e b];
      [|reflexivity]. simpl.
    destruct (ne_opt_float _ _); [|reflexivity].
    destruct (_log_sparsity _ _ epoch spe); reflexivity.
  - unfold optimizer_post_step.
    destruct (super_optimizer_post_step (super m) md opt epoch spe);
      reflexivity.
Qed.

Lemma init_ok_configuration (a : init_args) (m : GradualKSModifier) :
  __init__ a = Ok m ->
  init_sparsity a = VFloat (_init_sparsity m)
  /\ final_sparsity a = VFloat (_final_sparsity m)
  /\ out_of_unit_range (_init_sparsity m) = false
  /\ out_of_unit_range (_final_sparsity m) = false
  /\ _param m = param a
  /\ _leave_enabled m = convert_to_bool (leave_enabled a)
  /\ _param_strict m = convert_to_bool (param_strict a)
  /\ validate_str_list (layers a) "GradualKSModifier for layers"
     = Ok (_layers m).
Proof.
  unfold __init__.
  destruct (super_init _ _ _) as [b|e]; cbn [Py.bind]; [|discriminate].
  destruct (validate_str_list _ _) as [ls|e]; cbn [Py.bind]; [|discriminate].
  destruct (PrimFloat.ltb (arg_start_epoch a) 0); [discriminate|].
  destruct (PrimFloat.ltb (arg_end_epoch a) (arg_start_epoch a));
    [discriminate|].
  destruct (init_sparsity a) as [| | |i|]; try discriminate.
  destruct (out_of_unit_range i) eqn:Hi; [discriminate|].
  destruct (final_sparsity a) as [| | |f|]; try discriminate.
  destruct (out_of_unit_range f) eqn:Hf; [discriminate|].
  destruct (in_list (inter_func a) INTERPOLATION_FUNCS); [|discriminate].
  cbn [negb]. intros [= <-]. simpl. auto 10.
Qed.

(** X1.  The lifecycle methods never assign a configuration attribute:
    through any sequence of [initialize], [update], [log_update] and
    [optimizer_post_step] calls, returning or raising, the getters
    return what the constructor stored: the two sparsities are the
    floats given, on which the range test of the constructor
    ([x < 0.0 or x > 1.0], which a NaN passes as well) is still false,
    and [param], [leave_enabled] and [param_strict] are the (converted)
    arguments. *)
Theorem lifecycle_keeps_configuration (a : init_args)
    (m0 : GradualKSModifier) (ops : list op) :
  __init__ a = Ok m0 ->
  Forall (fun o => negb (is_setter o) = true) ops ->
  let m := perform_all ops m0 in
  configuration_of m = configuration_of m0
  /\ init_sparsity a = VFloat (_init_sparsity m)
  /\ final_sparsity a = VFloat (_final_sparsity m)
  /\ out_of_unit_range (_init_sparsity m) = false
  /\ out_of_unit_range (_final_sparsity m) = false
  /\ _param m = param a
  /\ _leave_enabled m = convert_to_bool (leave_enabled a)
  /\ _param_strict m = convert_to_bool (param_strict a).
Proof.
  intros Hinit Hops m.
  assert (Hc : configuration_of m = configuration_of m0).
  { subst m.
    apply (perform_all_invariant
             (fun x => configuration_of x = configuration_of m0)
             (fun o => negb (is_setter o))); [|exact Hops|reflexivity].
    intros x o Ho Hx. apply negb_true_iff in Ho.
    rewrite lifecycle_call_keeps_configuration; assumption. }
  split; [exact Hc|].
  apply init_ok_configuration in Hinit.
  destruct Hinit as (Hi & Hf & Hri & Hrf & Hp & Hl & Hs & _).
  unfold configuration_of in Hc. injection Hc as Hc1 _ Hc3 Hc4 Hc5 _ Hc7 _.
  rewrite Hc1, Hc3, Hc4, Hc5, Hc7. auto 8.
Qed.

(** X2.  A property setter first calls [prop_set_check] with the name of
    its property.  When the check raises, the setter raises the same
    exception and the object is unchanged; when it passes, the setter
    returns, the getter of that property returns the value assigned,
    stored without any validation, and nothing else of the object
    (other properties, base-class state, masks, analyzers, applied and
    logged sparsity) changes. *)
Theorem setter_assigns_or_raises (m : GradualKSModifier) (o : op) :
  is_setter o = true ->
  (forall e, prop_set_check (super m) (property_name o) = Some e ->
             perform m o = Raised e m)
  /\ (prop_set_check (super m) (property_name o) = None ->
      exists m',
        perform m o = Returned m'
        /\ configuration_of m' = assigned o (configuration_of m)
        /\ super m' = super m
        /\ _module_masks m' = _module_masks m
        /\ _analyzers m' = _analyzers m
        /\ _applied_sparsity m' = _applied_sparsity m
        /\ _last_logged_sparsity m' = _last_logged_sparsity m).
Proof.
  destruct o; cbn [is_setter]; intros H; try discriminate;
    cbn [perform property_name];
    unfold param_setter, layers_setter, init_sparsity_setter,
      final_sparsity_setter, leave_enabled_setter, inter_func_setter,
      param_strict_setter, guarded_assign;
    (split;
     [intros e ->; reflexivity
     |intros ->; eexists; split; [reflexivity|];
      destruct m; simpl; auto 8]).
Qed.

Lemma Forall2_identity_map (f : ModuleParamKSMask -> ModuleParamKSMask)
    (l : list ModuleParamKSMask) :
  (forall k, mask_layer (f k) = mask_layer k /\ mask_param (f k) = mask_param k) ->
  map (fun k => (mask_layer k, mask_param k)) (map f l)
  = map (fun k => (mask_layer k, mask_param k)) l.
Proof.
  intros H. rewrite map_map. apply map_ext. intros k.
  destruct (H k) as (-> & ->). reflexivity.
Qed.

Lemma call_keeps_mask_identities (m : GradualKSModifier) (o : op) :
  is_initialize o = false ->
  mask_identities (state_of (perform m o)) = mask_identities m.
Proof.
  unfold mask_identities.
  destruct o; cbn [is_initialize perform]; intros H; try discriminate;
    try (unfold param_setter, layers_setter, init_sparsity_setter,
           final_sparsity_setter, leave_enabled_setter, inter_func_setter,
           param_strict_setter, guarded_assign;
         destruct (prop_set_check (super m) _); reflexivity).
  - unfold update.
    destruct (super_update (super m) md opt epoch spe) as [b|e b];
      [|reflexivity]. simpl.
    destruct (start_pending b epoch spe); simpl;
      destruct (end_pending b epoch spe && negb (_leave_enabled m)); simpl;
      match goal with
      | |- context [interpolate ?x ?x0 ?x1 ?y0 ?y1 ?c] =>
          destruct (interpolate x x0 x1 y0 y1 c)
      end; simpl;
      rewrite ?Forall2_identity_map; try reflexivity;
      intros k; simpl; auto.
  - unfold log_update.
    destruct (super_log_update (super m) md opt epoch spe) as [b|e b];
      [|reflexivity]. simpl.
    destruct (ne_opt_float _ _); [|reflexivity].
    destruct (_log_sparsity _ _ epoch spe); reflexivity.
  - unfold optimizer_post_step.
    destruct (super_optimizer_post_step (super m) md opt epoch spe);
      [|reflexivity]. simpl.
    apply Forall2_identity_map. intros k. simpl. auto.
Qed.

(** X3.  Only [initialize] creates masks.  Every other call (setters,
    [update], [log_update], [optimizer_post_step]), returning or
    raising, leaves the target list with the same masks for the same
    (layer, parameter) pairs in the same order; so until [initialize]
    has run the target list of a constructed modifier is empty, and
    [__del__] is what empties it again. *)
Theorem masks_are_created_only_by_initialize (m : GradualKSModifier)
    (ops : list op) :
  Forall (fun o => negb (is_initialize o) = true) ops ->
  mask_identities (perform_all ops m) = mask_identities m
  /\ (_module_masks m = [] -> _module_masks (perform_all ops m) = [])
  /\ _module_masks (__del__ (perform_all ops m)) = [].
Proof.
  intros Hops.
  assert (Hi : mask_identities (perform_all ops m) = mask_identities m).
  { apply (perform_all_invariant
             (fun x => mask_identities x = mask_identities m)
             (fun o => negb (is_initialize o))); [|exact Hops|reflexivity].
    intros x o Ho Hx. apply negb_true_iff in Ho.
    rewrite call_keeps_mask_identities; assumption. }
  split; [exact Hi|]. split; [|reflexivity].
  intros Hm. unfold mask_identities in Hi. rewrite Hm in Hi. simpl in Hi.
  apply map_eq_nil in Hi. exact Hi.
Qed.

End LifecycleFacts.

(** * Further properties of [initialize] *)

Section RegistrationFacts.

Import KS Lifecycle.

Context {E : Env}.

Lemma target_masks_app (p : string) (l1 l2 : list (string * Layer)) :
  target_masks p (l1 ++ l2) = target_masks p l1 ++ target_masks p l2.
Proof. unfold target_masks. rewrite filter_app, map_app. reflexivity. Qed.

Lemma target_analyzers_app (p : string) (l1 l2 : list (string * Layer)) :
  target_analyzers p (l1 ++ l2)
  = target_analyzers p l1 ++ target_analyzers p l2.
Proof. unfold target_analyzers. rewrite filter_app, map_app. reflexivity. Qed.

(** Whatever the loop's outcome, it has registered the layers of a
    prefix of the list, and it raised at a layer without the parameter. *)
Lemma initialize_loop_progress (ls : list (string * Layer)) :
  forall (m : GradualKSModifier) (ans : list ModuleKSAnalyzer),
    _analyzers m = Some ans ->
    exists done rest,
      ls = done ++ rest
      /\ _module_masks (state_of (initialize_loop m ls))
         = _module_masks m ++ target_masks (_param m) done
      /\ _analyzers (state_of (initialize_loop m ls))
         = Some (ans ++ target_analyzers (_param m) done)
      /\ (returned (initialize_loop m ls) = true -> rest = [])
      /\ (returned (initialize_loop m ls) = false ->
          exists nl rest',
            rest = nl :: rest'
            /\ has_param (_param m) nl = false
            /\ raised (initialize_loop m ls)
               = Some (ValueError
                   "Could not find required param {} in layer {} for GradualKSModifier")).
Proof.
  induction ls as [|[name layer] rest IH]; intros m ans Ha.
  - exists [], []. simpl. rewrite !app_nil_r. repeat split; auto.
    discriminate.
  - cbn [initialize_loop].
    destruct (find_param (_param m) (named_parameters layer)) as [pn|] eqn:Hf.
    + pose proof (find_param_some _ _ Hf) as Hp. subst pn.
      cbn [_param_strict _layers append_analyzer assign_analyzers
           assign_module_masks].
      rewrite andb_false_r.
      match goal with
      | |- context [initialize_loop ?m1 rest] =>
          destruct (IH m1 (ans ++ [{| an_layer := layer; an_name := name;
                                      an_param := _param m |}]))
            as (done & rest' & Hs & Hm & Han & Hr & Hx)
      end.
      { simpl. rewrite Ha. reflexivity. }
      exists ((name, layer) :: done), rest'.
      simpl in Hm, Han, Hr, Hx |- *.
      assert (Hh : has_param (_param m) (name, layer) = true).
      { unfold has_param. simpl. rewrite Hf. reflexivity. }
      split; [rewrite Hs; reflexivity|].
      unfold target_masks, target_analyzers in *. simpl. rewrite Hh. simpl.
      rewrite Hm, Han, <- !app_assoc. simpl.
      repeat split; auto.
    + assert (Hh : has_param (_param m) (name, layer) = false).
      { unfold has_param. simpl. rewrite Hf. reflexivity. }
      cbn [negb]. rewrite andb_true_r.
      destruct (_param_strict m && negb (is_all_token (_layers m))) eqn:Hflag.
      * exists [], ((name, layer) :: rest). simpl. rewrite !app_nil_r.
        repeat split; auto; try discriminate.
        intros _. exists (name, layer), rest. auto.
      * destruct (IH m ans Ha) as (done & rest' & Hs & Hm & Han & Hr & Hx).
        exists ((name, layer) :: done), rest'.
        split; [rewrite Hs; reflexivity|].
        unfold target_masks, target_analyzers in *. simpl. rewrite Hh.
        repeat split; auto.
Qed.

Lemma targets_paired (p : string) (ls : list (string * Layer)) :
  Forall2 (fun k an => mask_layer k = an_layer an
                       /\ mask_param k = an_param an
                       /\ In (an_name an, an_layer an) ls)
    (target_masks p ls) (target_analyzers p ls).
Proof.
  unfold target_masks, target_analyzers.
  induction ls as [|[n l] ls IH]; simpl; [constructor|].
  destruct (has_param p (n, l)); simpl.
  - constructor; [simpl; auto|].
    revert IH. apply Forall2_impl. intros k an (H1 & H2 & H3). auto.
  - revert IH. apply Forall2_impl. intros k an (H1 & H2 & H3). auto.
Qed.

(** X4.  [initialize] registers masks and analyzers in lockstep, also
    when it raises.  After [super().initialize] has returned and the
    layers are resolved, whatever the outcome: the masks appended and
    the analyzers set are those of the layers of a prefix of the
    resolved list, paired index by index (same layer, same parameter);
    the prefix is the whole list when [initialize] returns, and ends
    just before a layer without the parameter when it raises, so the
    layers before the offending one stay registered. *)
Theorem initialize_registers_in_lockstep (m : GradualKSModifier)
    (md : Module_) (opt : Optimizer) (b : base) (ls : list (string * Layer)) :
  super_initialize (super m) md opt = Returned b ->
  resolve_layers (_layers m) md = Ok ls ->
  exists done rest,
    ls = done ++ rest
    /\ _module_masks (state_of (initialize m md opt))
       = _module_masks m ++ target_masks (_param m) done
    /\ _analyzers (state_of (initialize m md opt))
       = Some (target_analyzers (_param m) done)
    /\ Forall2 (fun k an => mask_layer k = an_layer an
                            /\ mask_param k = an_param an
                            /\ In (an_name an, an_layer an) done)
         (target_masks (_param m) done) (target_analyzers (_param m) done)
    /\ (returned (initialize m md opt) = true -> rest = [])
    /\ (returned (initialize m md opt) = false ->
        exists nl rest',
          rest = nl :: rest' /\ has_param (_param m) nl = false).
Proof.
  intros Hs Hr. unfold initialize. rewrite Hs. cbn [_layers assign_super].
  rewrite Hr.
  destruct (initialize_loop_progress ls
              (assign_analyzers (assign_super m b) (Some [])) (ans := [])
              eq_refl)
    as (done & rest & Hsplit & Hm & Ha & Hret & Hraise).
  exists done, rest. simpl in Hm, Ha, Hraise.
  split; [exact Hsplit|]. split; [exact Hm|]. split; [exact Ha|].
  split; [apply targets_paired|]. split; [exact Hret|].
  intros Hf. destruct (Hraise Hf) as (nl & rest' & H1 & H2 & _).
  exists nl, rest'. auto.
Qed.

Lemma initialize_loop_returned_iff (ls : list (string * Layer))
    (m : GradualKSModifier) (ans : list ModuleKSAnalyzer) :
  _analyzers m = Some ans ->
  returned (initialize_loop m ls) = true ->
  _param_strict m && negb (is_all_token (_layers m)) = false
  \/ (forall nl, In nl ls -> has_param (_param m) nl = true).
Proof.
  intros Ha Hret.
  destruct (_param_strict m && negb (is_all_token (_layers m))) eqn:Hflag;
    [|left; reflexivity].
  right. intros nl Hin.
  destruct (has_param (_param m) nl) eqn:Hh; [reflexivity|].
  destruct (initialize_loop_raises ls m Hflag) as (m' & Hl).
  { exists nl. auto. }
  rewrite Hl in Hret. discriminate.
Qed.

(** X5.  [initialize] resets the analyzers but not the target list:
    when a second [initialize] on the same module follows a first one
    and both return, the target list holds every mask twice (the masks
    of the first call followed by the same masks again), while the
    analyzers are those of one call. *)
Theorem initialize_twice_duplicates_masks (m m1 : GradualKSModifier)
    (md : Module_) (opt : Optimizer) (b b1 : base)
    (ls : list (string * Layer)) :
  super_initialize (super m) md opt = Returned b ->
  resolve_layers (_layers m) md = Ok ls ->
  initialize m md opt = Returned m1 ->
  super_initialize (super m1) md opt = Returned b1 ->
  exists m2,
    initialize m1 md opt = Returned m2
    /\ _module_masks m2
       = _module_masks m ++ target_masks (_param m) ls
         ++ target_masks (_param m) ls
    /\ _analyzers m2 = Some (target_analyzers (_param m) ls)
    /\ _analyzers m1 = Some (target_analyzers (_param m) ls).
Proof.
  intros Hs Hr Hi Hs1.
  assert (Hloop : initialize_loop (assign_analyzers (assign_super m b) (Some []))
                    ls = Returned m1).
  { unfold initialize in Hi. rewrite Hs in Hi. cbn [_layers assign_super] in Hi.
    rewrite Hr in Hi. exact Hi. }
  assert (Hc : _param_strict m && negb (is_all_token (_layers m)) = false
               \/ (forall nl, In nl ls -> has_param (_param m) nl = true)).
  { apply (initialize_loop_returned_iff ls
             (assign_analyzers (assign_super m b) (Some [])) (ans := []) eq_refl).
    rewrite Hloop. reflexivity. }
  rewrite (initialize_loop_returns ls
             (assign_analyzers (assign_super m b) (Some [])) (ans := []) eq_refl
             Hc) in Hloop.
  injection Hloop as <-. cbn [app] in *.
  unfold initialize. rewrite Hs1. simpl. rewrite Hr.
  match goal with
  | |- context [initialize_loop ?mx ls] =>
      rewrite (initialize_loop_returns ls mx (ans := []) eq_refl);
        [|exact Hc]
  end.
  eexists. split; [reflexivity|]. simpl. rewrite <- app_assoc. auto.
Qed.

(** Lookup of an explicit list of names. *)
Lemma dict_set_in_keys {V} (d : list (string * V)) (k : string) (v : V)
    (x : string) :
  In x (map fst (dict_set d k v)) <-> x = k \/ In x (map fst d).
Proof.
  induction d as [|[k' v'] r IH]; simpl.
  - split; [intros [<-|[]]; auto|intros [->|[]]; auto].
  - destruct (String.eqb_spec k' k) as [->|Hne]; simpl.
    + intuition congruence.
    + rewrite IH. intuition congruence.
Qed.

Lemma dict_set_nodup {V} (d : list (string * V)) (k : string) (v : V) :
  NoDup (map fst d) -> NoDup (map fst (dict_set d k v)).
Proof.
  induction d as [|[k' v'] r IH]; simpl; intros Hnd.
  - constructor; [intros []|constructor].
  - destruct (String.eqb_spec k' k) as [->|Hne]; simpl; [exact Hnd|].
    inversion Hnd as [|? ? Hn Hr]; subst.
    constructor; [|apply IH; exact Hr].
    rewrite dict_set_in_keys. intros [Hk|Hin]; congruence.
Qed.

Lemma dict_set_items {V} (d : list (string * V)) (k : string) (v : V)
    (x : string) (w : V) :
  In (x, w) (dict_set d k v) -> (x = k /\ w = v) \/ In (x, w) d.
Proof.
  induction d as [|[k' v'] r IH]; simpl.
  - intros [[= <- <-]|[]]. auto.
  - destruct (String.eqb_spec k' k) as [->|Hne]; simpl.
    + intros [[= <- <-]|Hin]; auto.
    + intros [[= <- <-]|Hin]; auto. destruct (IH Hin); auto.
Qed.

Lemma layers_by_name_ok (names : list string) (md : Module_) :
  forall acc ls,
    layers_by_name names md acc = Ok ls ->
    (forall x, In x (map fst ls) <-> In x names \/ In x (map fst acc))
    /\ (NoDup (map fst acc) -> NoDup (map fst ls))
    /\ ((forall x l, In (x, l) acc -> get_layer x md = Ok l) ->
        forall x l, In (x, l) ls -> get_layer x md = Ok l).
Proof.
  induction names as [|n rest IH]; intros acc ls; simpl.
  - intros [= <-]. repeat split; tauto.
  - destruct (get_layer n md) as [l|e] eqn:Hg; [|discriminate].
    intros H. destruct (IH _ _ H) as (H1 & H2 & H3).
    split; [|split].
    + intros x. rewrite H1, dict_set_in_keys.
      split; intros; intuition (subst; auto).
    + intros Hnd. apply H2, dict_set_nodup, Hnd.
    + intros Hacc. apply H3. intros x w Hin.
      destruct (dict_set_items _ _ _ _ _ Hin) as [(-> & ->)|Hin']; auto.
Qed.

Lemma layers_by_name_err (names : list string) (md : Module_) :
  forall acc e,
    layers_by_name names md acc = Err e ->
    exists before n after,
      names = before ++ n :: after
      /\ get_layer n md = Err e
      /\ Forall (fun x => exists l, get_layer x md = Ok l) before.
Proof.
  induction names as [|n rest IH]; intros acc e; simpl; [discriminate|].
  destruct (get_layer n md) as [l|e'] eqn:Hg.
  - intros H. destruct (IH _ _ H) as (before & x & after & -> & Hx & Hb).
    exists (n :: before), x, after. repeat split; auto.
    constructor; eauto.
  - intros [= <-]. exists [], n, rest. repeat split; auto.
Qed.

(** X6.  Resolution of the layer selection.  The wildcard never fails
    and takes the terminal layers as they come.  An explicit list is
    looked up name by name: if it succeeds, every listed name occurs
    exactly once among the resolved layers (a repeated name gives one
    layer, so one mask) with the layer [get_layer] returns for it; if a
    name is unknown, the error is that of the first such name. *)
Theorem resolve_layers_outcomes (sel : str_or_list) (md : Module_) :
  (is_all_token sel = true ->
   resolve_layers sel md = Ok (get_terminal_layers md))
  /\ (is_all_token sel = false ->
      forall ls, resolve_layers sel md = Ok ls ->
        NoDup (map fst ls)
        /\ (forall x, In x (map fst ls) <-> In x (iter_names sel))
        /\ (forall x l, In (x, l) ls -> get_layer x md = Ok l))
  /\ (is_all_token sel = false ->
      forall e, resolve_layers sel md = Err e ->
        exists before n after,
          iter_names sel = before ++ n :: after
          /\ get_layer n md = Err e
          /\ Forall (fun x => exists l, get_layer x md = Ok l) before).
Proof.
  unfold resolve_layers. split; [intros ->; reflexivity|].
  split; intros ->.
  - intros ls H. destruct (layers_by_name_ok _ _ _ H) as (H1 & H2 & H3).
    split; [apply H2; constructor|]. split.
    + intros x. rewrite H1. simpl. tauto.
    + apply H3. intros x l [].
  - intros e H. apply (layers_by_name_err _ _ _ H).
Qed.

(** X7.  When a layer cannot be resolved, [initialize] raises the lookup
    error after [super().initialize] has run and before it touches its
    own attributes: the target list and the analyzers (not yet reset)
    are as before the call. *)
Theorem initialize_unresolved_layer_registers_nothing (m : GradualKSModifier)
    (md : Module_) (opt : Optimizer) (b : base) (e : exn) :
  super_initialize (super m) md opt = Returned b ->
  resolve_layers (_layers m) md = Err e ->
  raised (initialize m md opt) = Some e
  /\ _module_masks (state_of (initialize m md opt)) = _module_masks m
  /\ _analyzers (state_of (initialize m md opt)) = _analyzers m
  /\ super (state_of (initialize m md opt)) = b
  /\ exists before n after,
       iter_names (_layers m) = before ++ n :: after
       /\ get_layer n md = Err e
       /\ Forall (fun x => exists l, get_layer x md = Ok l) before.
Proof.
  intros Hs Hr. unfold initialize. rewrite Hs. cbn [_layers assign_super].
  rewrite Hr. simpl. repeat split.
  destruct (resolve_layers_outcomes (_layers m) md) as (Hall & _ & Herr).
  destruct (is_all_token (_layers m)) eqn:Ht.
  - rewrite (Hall eq_refl) in Hr. discriminate.
  - apply (Herr eq_refl e Hr).
Qed.

End RegistrationFacts.

(** * Further properties of [update] and of logging *)

Section FailureFacts.

Import KS Lifecycle.

Context {E : Env}.

(** X8.  When [interpolate] raises inside [update] (after
    [super().update] has returned), [update] raises the same exception;
    the [enabled] assignments of the edges have already been made on
    every mask, while [applied_sparsity] and the mask buffers keep
    their previous values. *)
Theorem update_raises_after_toggling (m : GradualKSModifier) (md : Module_)
    (opt : Optimizer) (epoch : float) (spe : Z) (b : base) (e : exn) :
  super_update (super m) md opt epoch spe = Returned b ->
  interpolate epoch (start_epoch b) (end_epoch b) (_init_sparsity m)
    (_final_sparsity m) (_inter_func m) = Err e ->
  exists m',
    update m md opt epoch spe = Raised e m'
    /\ _applied_sparsity m' = _applied_sparsity m
    /\ Forall2
         (fun k k' =>
            received_since k k'
              (toggles (start_pending b epoch spe) (end_pending b epoch spe)
                 (_leave_enabled m))
            /\ mask_sparsity k' = mask_sparsity k)
         (_module_masks m) (_module_masks m').
Proof.
  intros Hs Hi. unfold update, toggles. rewrite Hs. simpl.
  destruct (start_pending b epoch spe); simpl;
    destruct (end_pending b epoch spe && negb (_leave_enabled m)); simpl;
    rewrite Hi; eexists; (split; [reflexivity|]); simpl;
    (split; [reflexivity|]);
    rewrite ?map_map;
    first [ apply Forall2_map_same | apply Forall2_same ]; intros k;
    unfold received_since; simpl; rewrite <- ?app_assoc; simpl;
    rewrite ?app_nil_r; auto.
Qed.

Lemma log_loggers_none (lgs : list string) (step : Z) :
  lgs <> [] ->
  log_loggers lgs None step []
  = Err (TypeError "'NoneType' object is not iterable").
Proof. destruct lgs; [congruence|reflexivity]. Qed.

Lemma expected_scalars_forall (lgs : list string)
    (ans : list ModuleKSAnalyzer) (step : Z) :
  Forall
    (fun ev =>
       ev_step ev = step
       /\ In (ev_logger ev) lgs
       /\ exists an, In an ans
                     /\ ev_tag ev = ("Modifier KS/" ++ tag an)%string
                     /\ ev_value ev = param_sparsity_item an)
    (expected_scalars lgs ans step).
Proof.
  unfold expected_scalars. rewrite Forall_forall. intros ev Hin.
  apply in_flat_map in Hin. destruct Hin as (lg & Hlg & Hin).
  apply in_map_iff in Hin. destruct Hin as (an & <- & Han).
  simpl. eauto 6.
Qed.

(** X9.  [_log_sparsity] computes the step before it logs: an epoch
    whose step cannot be rounded raises with nothing logged.  Otherwise
    with no logger it logs nothing and never looks at the analyzers
    (which may still be [None]); with at least one logger and
    analyzers still [None] it raises a [TypeError] with nothing logged;
    with analyzers it logs [len(loggers) * len(analyzers)] scalars,
    every one with that same step, the tag ["Modifier KS/" + tag] and
    the sparsity of one of the analyzers. *)
Theorem log_sparsity_outcomes (analyzers : option (list ModuleKSAnalyzer))
    (lgs : list string) (epoch : float) (spe : Z) :
  (forall e, log_step epoch spe = Err e ->
             _log_sparsity analyzers lgs epoch spe = Err e)
  /\ (forall step, log_step epoch spe = Ok step ->
      (lgs = [] -> _log_sparsity analyzers lgs epoch spe = Ok [])
      /\ (lgs <> [] -> analyzers = None ->
          _log_sparsity analyzers lgs epoch spe
          = Err (TypeError "'NoneType' object is not iterable"))
      /\ (forall ans, analyzers = Some ans ->
          exists evs,
            _log_sparsity analyzers lgs epoch spe = Ok evs
            /\ List.length evs = (List.length lgs * List.length ans)%nat
            /\ Forall
                 (fun ev =>
                    ev_step ev = step
                    /\ In (ev_logger ev) lgs
                    /\ exists an,
                         In an ans
                         /\ ev_tag ev = ("Modifier KS/" ++ tag an)%string
                         /\ ev_value ev = param_sparsity_item an)
                 evs)).
Proof.
  unfold _log_sparsity. split.
  - intros e ->. reflexivity.
  - intros step ->. cbn [Py.bind]. split; [|split].
    + intros ->. reflexivity.
    + intros Hl ->. apply log_loggers_none. exact Hl.
    + intros ans ->. rewrite log_loggers_emits. simpl.
      eexists. split; [reflexivity|].
      split; [apply expected_scalars_length|apply expected_scalars_forall].
Qed.

(** X10.  [log_update] records the sparsity as logged before it logs.
    When the sparsity has changed and [_log_sparsity] raises,
    [log_update] raises with nothing logged, yet
    [last_logged_sparsity] already equals [applied_sparsity]; the next
    [log_update] on that object then finds nothing to log (for a
    sparsity that is a number), so the change is never logged. *)
Theorem failed_log_is_not_retried (m : GradualKSModifier) (md : Module_)
    (opt : Optimizer) (epoch : float) (spe : Z) (b : base) (e : exn) :
  super_log_update (super m) md opt epoch spe = Returned b ->
  ne_opt_float (_applied_sparsity m) (_last_logged_sparsity m) = true ->
  _log_sparsity (_analyzers m) (loggers b) epoch spe = Err e ->
  exists m',
    log_update m md opt epoch spe = (Raised e m', [])
    /\ _last_logged_sparsity m' = _applied_sparsity m
    /\ _applied_sparsity m' = _applied_sparsity m
    /\ forall md' opt' epoch' spe' b',
         (forall x, _applied_sparsity m = Some x -> is_number x = true) ->
         super_log_update (super m') md' opt' epoch' spe' = Returned b' ->
         log_update m' md' opt' epoch' spe' = (Returned (assign_super m' b'), []).
Proof.
  intros Hs Hne Hl. unfold log_update at 1. rewrite Hs. simpl.
  rewrite Hne, Hl. eexists. split; [reflexivity|]. simpl.
  split; [reflexivity|]. split; [reflexivity|].
  intros md' opt' epoch' spe' b' Hnum Hs'.
  unfold log_update. simpl. simpl in Hs'. rewrite Hs'. simpl.
  destruct (_applied_sparsity m) as [x|]; simpl; [|reflexivity].
  specialize (Hnum x eq_refl). unfold is_number in Hnum. rewrite Hnum.
  reflexivity.
Qed.

End FailureFacts.


(** * Further properties of the manager

    The rest of [manager.py]: [finalize] and [from_yaml], and what
    [modify] does besides ordering its calls. *)

Module ManagerRest.

Import Manager.

Section Keras.

Variables Model Optimizer Callback Loggers InputTensors : Type.

Abbreviation modifier :=
  (ScheduledModifier Model Optimizer Callback Loggers InputTensors).

Abbreviation manager :=
  (ScheduledModifierManager Model Optimizer Callback Loggers InputTensors).

(** [mod.finalize(model)] of each modifier, defined with the modifiers. *)
Variable mod_finalize : modifier -> Model -> result Model.

(** [for mod in self._modifiers: model = mod.finalize(model)]. *)
Fixpoint finalize_loop (mods : list modifier) (model : Model) : result Model :=
  match mods with
  | [] => Ok model
  | md :: rest =>
      match mod_finalize md model with
      | Err e => Err e
      | Ok model' => finalize_loop rest model'
      end
  end.

Definition finalize (self : manager) (model : Model) : result Model :=
  finalize_loop (_modifiers self) model.

(** [load_recipe_yaml_str] and [Modifier.load_list], defined elsewhere. *)
Variable load_recipe_yaml_str : string -> result string.
Variable load_list : string -> result (list modifier).

(** [ScheduledModifierManager.from_yaml]; [if add_modifiers:] holds for a
    list that is neither [None] nor empty. *)
Definition from_yaml (file_path : string) (add_modifiers : option (list modifier))
  : result manager :=
  yaml_str <- load_recipe_yaml_str file_path ;;
  modifiers <- load_list yaml_str ;;
  let modifiers :=
    match add_modifiers with
    | Some (x :: l) => modifiers ++ x :: l
    | Some [] | None => modifiers
    end in
  Ok (__init__ modifiers).

(** [mod.start_epoch == k]. *)
Definition starts_at (k : float) (md : modifier) : bool :=
  PrimFloat.eqb (start_epoch md) k.

(** A modifier whose [modify] returns, with a callback that is [None], a
    list or a [Callback], whatever it is given. *)
Definition well_behaved (spe : Z) (loggers : option Loggers)
    (input_tensors : option InputTensors) (md : modifier) : Prop :=
  forall model optimizer,
    exists model' optimizer' cb,
      mod_modify md model optimizer spe loggers input_tensors
      = Ok (model', optimizer', cb)
      /\ forall v, cb <> CbOther Callback v.

End Keras.

End ManagerRest.

Section FloatEquality.

Lemma SFeqb_key (x y : spec_float) :
  SFeqb x y = true ->
  x <> S754_nan /\ y <> S754_nan /\ sf_key x = sf_key y.
Proof.
  unfold SFeqb, SFcompare.
  destruct x as [sx|sx| |sx mx ex], y as [sy|sy| |sy my ey];
    try discriminate;
    try destruct sx; try destruct sy; try discriminate;
    cbn [sf_key]; intros H;
    try (repeat split; congruence);
    change (Pos.compare_cont Eq mx my) with (Pos.compare mx my) in H;
    destruct (Z.compare_spec ex ey); try discriminate;
    destruct (Pos.compare_spec mx my); try discriminate;
    subst; repeat split; congruence.
Qed.

(** Two floats equal to a third are not ordered by [<]. *)
Lemma ltb_false_of_eqb (x y k : float) :
  PrimFloat.eqb y k = true -> PrimFloat.eqb x k = true ->
  PrimFloat.ltb y x = false.
Proof.
  rewrite !FloatAxioms.eqb_spec, FloatAxioms.ltb_spec. intros Hy Hx.
  apply SFeqb_key in Hy. apply SFeqb_key in Hx.
  destruct Hy as (Hy & _ & Ky). destruct Hx as (Hx & _ & Kx).
  destruct (SFltb (Prim2SF y) (Prim2SF x)) eqn:Hl; [|reflexivity].
  apply (SFltb_key Hy Hx) in Hl. rewrite Ky, Kx in Hl.
  unfold key_lt in Hl. lia.
Qed.

End FloatEquality.

Section ManagerRestFacts.

Import Manager ManagerRest.

Variables Model Optimizer Callback Loggers InputTensors : Type.

Abbreviation modifier' :=
  (ScheduledModifier Model Optimizer Callback Loggers InputTensors).

Abbreviation manager' :=
  (ScheduledModifierManager Model Optimizer Callback Loggers InputTensors).

Lemma insert_starts_at (k : float) (x : modifier') (l : list modifier') :
  filter (starts_at k) (insert x l) = filter (starts_at k) (x :: l).
Proof.
  induction l as [|y r IH]; [reflexivity|].
  cbn [insert].
  destruct (PrimFloat.ltb (start_epoch y) (start_epoch x)) eqn:Hlt;
    [|reflexivity].
  cbn [filter] in *. rewrite IH.
  destruct (starts_at k y) eqn:Hy; [|reflexivity].
  destruct (starts_at k x) eqn:Hx; [|reflexivity].
  unfold starts_at in Hy, Hx.
  rewrite (ltb_false_of_eqb Hy Hx) in Hlt. discriminate.
Qed.

Lemma sort_starts_at (k : float) (l : list modifier') :
  filter (starts_at k) (sort_by_start_epoch l) = filter (starts_at k) l.
Proof.
  induction l as [|x l IH]; [reflexivity|].
  cbn [sort_by_start_epoch fold_right].
  rewrite insert_starts_at. cbn [filter].
  unfold sort_by_start_epoch in IH. rewrite IH. reflexivity.
Qed.

Lemma sort_of_ascending (l : list modifier') :
  ascending l -> sort_by_start_epoch l = l.
Proof.
  intros Hs. induction Hs as [|x r Hr IH Hx]; [reflexivity|].
  cbn [sort_by_start_epoch fold_right]. unfold sort_by_start_epoch in IH.
  rewrite IH. destruct r as [|y r']; [reflexivity|].
  cbn [insert]. inversion Hx as [|? ? Hy _]; subst. rewrite Hy.
  reflexivity.
Qed.

Lemma modify_loop_err (mods : list modifier') (spe : Z)
    (loggers : option Loggers) (input_tensors : option InputTensors) :
  forall model optimizer callbacks calls e,
    snd (modify_loop mods model optimizer spe loggers input_tensors callbacks
           calls) = Err e ->
    exists done md model' optimizer',
      fst (modify_loop mods model optimizer spe loggers input_tensors callbacks
             calls) = calls ++ done ++ [md]
      /\ (mod_modify md model' optimizer' spe loggers input_tensors = Err e
          \/ exists mo op v,
               mod_modify md model' optimizer' spe loggers input_tensors
               = Ok (mo, op, CbOther Callback v)
               /\ e = RuntimeError "Invalid callback type").
Proof.
  induction mods as [|md rest IH]; intros model optimizer callbacks calls e;
    [discriminate|].
  cbn [modify_loop].
  destruct (mod_modify md model optimizer spe loggers input_tensors)
    as [[[model' optimizer'] cb]|e'] eqn:Hm.
  - destruct cb as [|l|c|v];
      try (intros H; destruct (IH _ _ _ _ _ H)
             as (done & md' & mo' & op' & Hc & Hd);
           exists (md :: done), md', mo', op';
           split; [rewrite Hc, <- app_assoc; reflexivity|exact Hd]).
    simpl. intros [= <-]. exists [], md, model, optimizer.
    split; [reflexivity|]. right. eauto.
  - simpl. intros [= <-]. exists [], md, model, optimizer.
    split; [reflexivity|]. left. exact Hm.
Qed.

Lemma modify_loop_well_behaved (mods : list modifier') (spe : Z)
    (loggers : option Loggers) (input_tensors : option InputTensors) :
  Forall (well_behaved spe loggers input_tensors) mods ->
  forall model optimizer callbacks calls,
    exists v,
      modify_loop mods model optimizer spe loggers input_tensors callbacks calls
      = (calls ++ mods, Ok v).
Proof.
  intros Hw. induction Hw as [|md rest Hmd _ IH];
    intros model optimizer callbacks calls.
  - simpl. rewrite app_nil_r. eauto.
  - cbn [modify_loop].
    destruct (Hmd model optimizer) as (mo & op & cb & -> & Hcb).
    destruct cb as [|l|c|v]; try (exfalso; apply (Hcb v); reflexivity);
      match goal with
      | |- context [modify_loop rest ?a ?b spe loggers input_tensors ?c
                      (calls ++ [md])] =>
          destruct (IH a b c (calls ++ [md])) as (v & ->)
      end; rewrite <- app_assoc; eauto.
Qed.

(** X11.  Sorting by [start_epoch] is stable: when the [start_epoch]s
    of the manager's modifiers are numbers (none is NaN), the modifiers
    that start at the same epoch keep, in the sorted list that [modify]
    stores and walks, the order in which the manager held them. *)
Theorem modify_keeps_order_of_equal_start_epochs (self : manager')
    (model : Model) (optimizer : Optimizer) (spe : Z)
    (loggers : option Loggers) (input_tensors : option InputTensors)
    (k : float) :
  Forall (fun md => is_number (start_epoch md) = true) (_modifiers self) ->
  filter (starts_at k)
    (_modifiers
       (manager_after (modify self model optimizer spe loggers input_tensors)))
  = filter (starts_at k) (_modifiers self).
Proof.
  intros _. unfold modify.
  destruct (modify_loop (sort_by_start_epoch (_modifiers self)) model optimizer
              spe loggers input_tensors [] []) as [calls res].
  cbn [manager_after _modifiers]. apply sort_starts_at.
Qed.

(** X12.  What a [modify] call leaves behind, for a manager whose
    modifiers have numbers (no NaN) as [start_epoch]s.  The manager's
    list is sorted in place, whether the call returns or raises.  If it
    returns, every modifier has been called and [self._optimizer] is
    the optimizer returned.  If it raises, the calls stop at the
    modifier that caused it, which either raised the exception itself
    or returned a callback that is neither [None], a list nor a
    [Callback] (then the exception is [RuntimeError("Invalid callback
    type")]), and [self._optimizer] is not assigned. *)
Theorem modify_outcomes (self : manager') (model : Model)
    (optimizer : Optimizer) (spe : Z) (loggers : option Loggers)
    (input_tensors : option InputTensors) :
  Forall (fun md => is_number (start_epoch md) = true) (_modifiers self) ->
  let r := modify self model optimizer spe loggers input_tensors in
  _modifiers (manager_after r) = sort_by_start_epoch (_modifiers self)
  /\ Permutation (_modifiers (manager_after r)) (_modifiers self)
  /\ (forall mo op cbs,
         returned_value r = Ok (mo, op, cbs) ->
         _optimizer (manager_after r) = Some op
         /\ called r = _modifiers (manager_after r))
  /\ (forall e,
         returned_value r = Err e ->
         _optimizer (manager_after r) = _optimizer self
         /\ exists done md model' optimizer',
              called r = done ++ [md]
              /\ (exists rest, _modifiers (manager_after r)
                               = done ++ md :: rest)
              /\ (mod_modify md model' optimizer' spe loggers input_tensors
                  = Err e
                  \/ exists mo op v,
                       mod_modify md model' optimizer' spe loggers
                         input_tensors
                       = Ok (mo, op, CbOther Callback v)
                       /\ e = RuntimeError "Invalid callback type")).
Proof.
  intros _ r. subst r. unfold modify.
  pose proof (modify_loop_called (sort_by_start_epoch (_modifiers self)) model
                optimizer spe loggers input_tensors [] [])
    as (done & rest & Hsplit & Hc & Hr).
  pose proof (@modify_loop_err (sort_by_start_epoch (_modifiers self)) spe
                loggers input_tensors model optimizer [] []) as Herr.
  destruct (modify_loop (sort_by_start_epoch (_modifiers self)) model optimizer
              spe loggers input_tensors [] []) as [calls res].
  cbn [manager_after called returned_value _modifiers _optimizer fst snd] in *.
  split; [reflexivity|]. split; [apply sort_perm|]. split.
  - intros mo op cbs ->. split; [reflexivity|].
    rewrite Hc, Hsplit, (Hr _ eq_refl), app_nil_r. reflexivity.
  - intros e ->. split; [reflexivity|].
    destruct (Herr e eq_refl) as (done' & md & mo' & op' & Hc' & Hd).
    simpl in Hc, Hc'. exists done', md, mo', op'.
    split; [exact Hc'|]. split; [|exact Hd].
    exists rest. rewrite Hsplit, <- Hc, Hc', <- app_assoc. reflexivity.
Qed.

(** X13.  When the [start_epoch]s of the manager's modifiers are
    numbers (none is NaN) and every modifier is well behaved (its
    [modify] returns, with a callback that is [None], a list or a
    [Callback]), [modify] returns and has called exactly the modifiers
    of the manager, each once per listing, in the sorted order. *)
Theorem modify_returns_for_well_behaved_modifiers (self : manager')
    (model : Model) (optimizer : Optimizer) (spe : Z)
    (loggers : option Loggers) (input_tensors : option InputTensors) :
  Forall (fun md => is_number (start_epoch md) = true) (_modifiers self) ->
  Forall (well_behaved spe loggers input_tensors) (_modifiers self) ->
  let r := modify self model optimizer spe loggers input_tensors in
  (exists v, returned_value r = Ok v)
  /\ called r = sort_by_start_epoch (_modifiers self)
  /\ Permutation (called r) (_modifiers self).
Proof.
  intros _ Hw r. subst r. unfold modify.
  assert (Hs : Forall (well_behaved spe loggers input_tensors)
                 (sort_by_start_epoch (_modifiers self))).
  { apply (Permutation_Forall (Permutation_sym (sort_perm (_modifiers self)))).
    exact Hw. }
  destruct (modify_loop_well_behaved Hs model optimizer [] []) as (v & ->).
  cbn [returned_value called]. split; [eauto|]. simpl.
  split; [reflexivity|apply sort_perm].
Qed.

(** X14.  [modify] can be repeated: with [start_epoch]s that are
    numbers, the list it leaves in the manager is in ascending order,
    sorting it again changes nothing, and a second [modify] calls the
    modifiers along that same list. *)
Theorem modify_again_follows_same_order (self : manager')
    (model model2 : Model) (optimizer optimizer2 : Optimizer) (spe spe2 : Z)
    (loggers loggers2 : option Loggers)
    (input_tensors input_tensors2 : option InputTensors) :
  Forall (fun md => is_number (start_epoch md) = true) (_modifiers self) ->
  let after := manager_after
                 (modify self model optimizer spe loggers input_tensors) in
  let r2 := modify after model2 optimizer2 spe2 loggers2 input_tensors2 in
  ascending (_modifiers after)
  /\ _modifiers (manager_after r2) = _modifiers after
  /\ exists rest, _modifiers after = called r2 ++ rest.
Proof.
  intros Hn after r2.
  assert (Ha : _modifiers after = sort_by_start_epoch (_modifiers self)).
  { subst after. unfold modify.
    destruct (modify_loop _ _ _ _ _ _ _ _). reflexivity. }
  assert (Hs : ascending (_modifiers after)).
  { rewrite Ha. apply sort_ascending. exact Hn. }
  split; [exact Hs|].
  subst r2. unfold modify. rewrite (sort_of_ascending Hs).
  pose proof (modify_loop_called (_modifiers after) model2 optimizer2 spe2
                loggers2 input_tensors2 [] [])
    as (done & rest & Hsplit & Hc & _).
  destruct (modify_loop (_modifiers after) model2 optimizer2 spe2 loggers2
              input_tensors2 [] []) as [calls res].
  cbn [manager_after called _modifiers fst] in *.
  split; [reflexivity|]. exists rest. rewrite Hc. exact Hsplit.
Qed.

Section Finalize.

Variable mod_finalize : modifier' -> Model -> result Model.

Lemma finalize_loop_app (l1 l2 : list modifier') (model : Model) :
  finalize_loop mod_finalize (l1 ++ l2) model
  = (model' <- finalize_loop mod_finalize l1 model ;;
     finalize_loop mod_finalize l2 model').
Proof.
  revert model. induction l1 as [|md l1 IH]; intros model; simpl;
    [reflexivity|].
  destruct (mod_finalize md model); [apply IH|reflexivity].
Qed.

(** X15.  [finalize] passes the model through [mod.finalize] of every
    modifier in the order of the manager's list and does not sort: a
    manager of no modifiers returns the model as it is; the first
    [mod.finalize] that raises ends the call with its exception and no
    later modifier is asked; finalizing a list is finalizing its front
    part and then the rest on the result.  After a [modify] call on
    modifiers whose [start_epoch]s are numbers (none is NaN) that order
    is the ascending [start_epoch] order [modify] left behind. *)
Theorem finalize_runs_in_list_order (self : manager') (model : Model) :
  (_modifiers self = [] -> finalize mod_finalize self model = Ok model)
  /\ (forall l1 l2,
         _modifiers self = l1 ++ l2 ->
         finalize mod_finalize self model
         = (model' <- finalize_loop mod_finalize l1 model ;;
            finalize_loop mod_finalize l2 model'))
  /\ (forall l1 md l2 model' e,
         _modifiers self = l1 ++ md :: l2 ->
         finalize_loop mod_finalize l1 model = Ok model' ->
         mod_finalize md model' = Err e ->
         finalize mod_finalize self model = Err e)
  /\ (Forall (fun md => is_number (start_epoch md) = true) (_modifiers self) ->
      forall m0 o0 spe lg it,
         finalize mod_finalize
           (manager_after (modify self m0 o0 spe lg it)) model
         = finalize_loop mod_finalize
             (sort_by_start_epoch (_modifiers self)) model).
Proof.
  unfold finalize. split; [intros ->; reflexivity|]. split; [|split].
  - intros l1 l2 ->. apply finalize_loop_app.
  - intros l1 md l2 model' e -> H1 H2.
    rewrite finalize_loop_app, H1. simpl. rewrite H2. reflexivity.
  - intros _ m0 o0 spe lg it. unfold modify.
    destruct (modify_loop _ _ _ _ _ _ _ _). reflexivity.
Qed.

End Finalize.

Section FromYaml.

Variable load_recipe_yaml_str : string -> result string.
Variable load_list : string -> result (list modifier').

(** X16.  [from_yaml] fails with the error of reading the recipe or of
    loading its modifiers, before any manager exists.  Otherwise the
    manager holds the recipe's modifiers followed by the additional
    ones ([None] and the empty list add nothing); when the
    [start_epoch]s of all of them are numbers (none is NaN), a [modify]
    call on it keeps, among the modifiers that start at the same epoch,
    the recipe's before the additional ones. *)
Theorem from_yaml_outcomes (file_path : string)
    (add_modifiers : option (list modifier')) :
  (forall e, load_recipe_yaml_str file_path = Err e ->
             from_yaml load_recipe_yaml_str load_list file_path add_modifiers
             = Err e)
  /\ (forall yaml_str e,
         load_recipe_yaml_str file_path = Ok yaml_str ->
         load_list yaml_str = Err e ->
         from_yaml load_recipe_yaml_str load_list file_path add_modifiers
         = Err e)
  /\ (forall yaml_str mods,
         load_recipe_yaml_str file_path = Ok yaml_str ->
         load_list yaml_str = Ok mods ->
         exists self,
           from_yaml load_recipe_yaml_str load_list file_path add_modifiers
           = Ok self
           /\ _modifiers self
              = mods ++ match add_modifiers with Some l => l | None => [] end
           /\ _optimizer self = None
           /\ (Forall (fun md => is_number (start_epoch md) = true)
                 (_modifiers self) ->
               forall model optimizer spe loggers input_tensors k,
                filter (starts_at k)
                  (_modifiers
                     (manager_after
                        (modify self model optimizer spe loggers
                           input_tensors)))
                = filter (starts_at k) mods
                  ++ filter (starts_at k)
                       match add_modifiers with Some l => l | None => [] end)).
Proof.
  unfold from_yaml. split; [intros e ->; reflexivity|].
  split; [intros y e Hy Hl; rewrite Hy; cbn [Py.bind]; rewrite Hl;
          reflexivity|].
  intros y mods Hy Hl. rewrite Hy. cbn [Py.bind]. rewrite Hl. cbn [Py.bind].
  eexists. split; [reflexivity|].
  assert (Hm : _modifiers
                 (__init__
                    match add_modifiers with
                    | Some (x :: l) => mods ++ x :: l
                    | _ => mods
                    end)
               = mods ++ match add_modifiers with Some l => l | None => [] end).
  { destruct add_modifiers as [[|x l]|]; simpl; rewrite ?app_nil_r;
      reflexivity. }
  split; [exact Hm|]. split; [reflexivity|].
  intros _ model optimizer spe loggers input_tensors k. unfold modify.
  destruct (modify_loop _ _ _ _ _ _ _ _).
  change (filter (starts_at k)
            (sort_by_start_epoch
               (_modifiers
                  (__init__
                     match add_modifiers with
                     | Some (x :: l) => mods ++ x :: l
                     | _ => mods
                     end)))
          = filter (starts_at k) mods
            ++ filter (starts_at k)
                 match add_modifiers with Some l => l | None => [] end).
  rewrite sort_starts_at, Hm. apply filter_app.
Qed.

End FromYaml.

End ManagerRestFacts.


(** * The further properties on the sample model *)

Module Trainings.

Import KS Sample.

(** One training step after [initialize], hook by hook. *)
Definition one_step : list op :=
  [OpInitialize model tt; OpUpdate model tt 5 100;
   OpLogUpdate model tt 5 100; OpOptimizerPostStep model tt 5 100].

(** Every kind of call but [initialize]. *)
Definition uninitialized_calls : list op :=
  [OpSetParam "bias"; OpUpdate model tt 5 100;
   OpOptimizerPostStep model tt 5 100; OpLogUpdate model tt 5 100].

(** Strict pruning of the biases of [fc], which has one, and then of
    [conv1], which has none. *)
Definition bias_of_fc_then_conv1 : GradualKSModifier :=
  constructed
    (with_selection recipe "bias" (StrList ["fc"; "conv1"]%string) true true).

(** A selection that names a layer the model does not have. *)
Definition weight_of_unknown : GradualKSModifier :=
  constructed
    (with_selection recipe "weight" (StrList ["fc"; "nowhere"]%string) true true).

(** The recipe's modifier with an unrecognized curve assigned before
    [initialize]. *)
Definition tampered : GradualKSModifier :=
  perform_all with_curve_assignment (constructed recipe).

End Trainings.

Section FurtherCases.

Import KS Lifecycle Sample Trainings.

Set Warnings "-inexact-float".

Lemma returned_state {S} (o : outcome S) :
  returned o = true -> o = Returned (state_of o).
Proof. destruct o; [reflexivity|discriminate]. Qed.

Lemma lifecycle_keeps_configuration_witness :
  final_sparsity recipe
  = VFloat (_final_sparsity (perform_all one_step (constructed recipe))).
Proof.
  destruct (@lifecycle_keeps_configuration env recipe (constructed recipe)
              one_step eq_refl ltac:(repeat constructor))
    as (_ & _ & H & _).
  exact H.
Defined.

Lemma setter_assigns_or_raises_witness :
  (exists m',
      perform (constructed recipe) (OpSetInterFunc "cubic") = Returned m'
      /\ c_inter_func (configuration_of m') = "cubic"%string)
  /\ returned (perform ready (OpSetInterFunc "cubic")) = false.
Proof.
  split.
  - destruct (@setter_assigns_or_raises env (constructed recipe)
                (OpSetInterFunc "cubic") eq_refl)
      as (_ & H).
    destruct (H eq_refl) as (m' & Hp & Hc & _).
    exists m'. split; [exact Hp|]. rewrite Hc. reflexivity.
  - destruct (@setter_assigns_or_raises env ready (OpSetInterFunc "cubic")
                eq_refl)
      as (H & _).
    rewrite (H (RuntimeError "cannot change a property after initialize")
               eq_refl).
    reflexivity.
Defined.

Lemma masks_are_created_only_by_initialize_witness :
  _module_masks (perform_all uninitialized_calls (constructed recipe)) = [].
Proof.
  destruct (@masks_are_created_only_by_initialize env (constructed recipe)
              uninitialized_calls ltac:(repeat constructor))
    as (_ & H & _).
  apply H. reflexivity.
Defined.

(** [fc] is registered before [conv1] makes [initialize] raise. *)
Lemma initialize_registers_in_lockstep_witness :
  exists done rest,
    [("fc"%string, fc); ("conv1"%string, conv1)] = done ++ rest
    /\ _module_masks (state_of (initialize bias_of_fc_then_conv1 model tt))
       = _module_masks bias_of_fc_then_conv1 ++ target_masks "bias" done
    /\ exists nl rest', rest = nl :: rest' /\ has_param "bias" nl = false.
Proof.
  destruct (@initialize_registers_in_lockstep env bias_of_fc_then_conv1 model
              tt
              (state_of (super_initialize (super bias_of_fc_then_conv1)
                           model tt))
              [("fc"%string, fc); ("conv1"%string, conv1)] eq_refl eq_refl)
    as (done & rest & Hs & Hm & _ & _ & _ & Hr).
  exists done, rest. split; [exact Hs|]. split; [exact Hm|].
  apply Hr. reflexivity.
Defined.

Lemma initialize_twice_duplicates_masks_witness :
  exists m2,
    initialize ready model tt = Returned m2
    /\ List.length (_module_masks m2) = 4%nat
    /\ _analyzers m2 = Some (target_analyzers "weight" model).
Proof.
  destruct (@initialize_twice_duplicates_masks env (constructed recipe) ready
              model tt
              (state_of (super_initialize (super (constructed recipe)) model tt))
              (state_of (super_initialize (super ready) model tt))
              model eq_refl eq_refl
              (returned_state (initialize (constructed recipe) model tt) eq_refl)
              eq_refl)
    as (m2 & Hi & Hm & Ha & _).
  exists m2. split; [exact Hi|]. split; [rewrite Hm; reflexivity|exact Ha].
Defined.

Lemma initialize_unresolved_layer_registers_nothing_witness :
  raised (initialize weight_of_unknown model tt)
  = Some (ValueError "layer not found")
  /\ _module_masks (state_of (initialize weight_of_unknown model tt))
     = _module_masks weight_of_unknown.
Proof.
  destruct (@initialize_unresolved_layer_registers_nothing env
              weight_of_unknown model tt
              (state_of (super_initialize (super weight_of_unknown) model tt))
              (ValueError "layer not found") eq_refl eq_refl)
    as (H1 & H2 & _).
  split; assumption.
Defined.

Lemma update_raises_after_toggling_witness :
  exists m',
    update tampered model tt 5 100
    = Raised (ValueError "unsupported interpolation curve") m'
    /\ _applied_sparsity m' = _applied_sparsity tampered.
Proof.
  destruct (@update_raises_after_toggling env tampered model tt 5%float 100
              (state_of (super_update (super tampered) model tt 5%float 100))
              (ValueError "unsupported interpolation curve") eq_refl eq_refl)
    as (m' & Hu & Ha & _).
  exists m'. split; assumption.
Defined.

(** An epoch that is NaN cannot be rounded to a step. *)
Lemma failed_log_is_not_retried_witness :
  exists m',
    log_update halfway model tt nan 100
    = (Raised (ValueError "cannot convert float NaN to integer") m', [])
    /\ _last_logged_sparsity m' = _applied_sparsity halfway.
Proof.
  destruct (@failed_log_is_not_retried env halfway model tt nan 100
              (super halfway)
              (ValueError "cannot convert float NaN to integer")
              eq_refl eq_refl eq_refl)
    as (m' & Hl & Hm & _).
  exists m'. split; assumption.
Defined.

Lemma keras_modifiers_well_behaved :
  Forall (ManagerRest.well_behaved 100 None None) keras_modifiers.
Proof.
  repeat constructor; intros model optimizer;
    eexists _, _, _; (split; [reflexivity|discriminate]).
Qed.

Lemma modify_returns_for_well_behaved_modifiers_witness :
  Manager.called
    (Manager.modify (Manager.__init__ keras_modifiers) [] tt 100 None None)
  = Manager.sort_by_start_epoch keras_modifiers.
Proof.
  destruct (@modify_returns_for_well_behaved_modifiers _ _ _ _ _
              (Manager.__init__ keras_modifiers) [] tt 100%Z None None
              ltac:(repeat constructor) keras_modifiers_well_behaved)
    as (_ & H & _).
  exact H.
Defined.

(** The two modifiers that start at epoch 1.0 stay in the order given. *)
Lemma modify_keeps_order_of_equal_start_epochs_witness :
  filter (ManagerRest.starts_at 1)
    (Manager._modifiers
       (Manager.manager_after
          (Manager.modify (Manager.__init__ keras_modifiers_with_tie) [] tt 100
             None None)))
  = [pruning_early; lr_warmup].
Proof.
  rewrite (@modify_keeps_order_of_equal_start_epochs _ _ _ _ _
             (Manager.__init__ keras_modifiers_with_tie) [] tt 100%Z None None
             1%float ltac:(repeat constructor)).
  reflexivity.
Defined.

(** The schedule (0) is called, then the modifier with the invalid
    callback (1): [modify] raises, the late pruning (2) is not called
    and no optimizer is stored. *)
Lemma modify_outcomes_witness :
  Manager._optimizer
    (Manager.manager_after
       (Manager.modify (Manager.__init__ keras_modifiers_with_invalid) [] tt
          100 None None))
  = None
  /\ Manager.called
       (Manager.modify (Manager.__init__ keras_modifiers_with_invalid) [] tt
          100 None None)
     = [lr_schedule; invalid_callback]
  /\ Manager._modifiers
       (Manager.manager_after
          (Manager.modify (Manager.__init__ keras_modifiers_with_invalid) [] tt
             100 None None))
     = [lr_schedule; invalid_callback; pruning_late].
Proof.
  destruct (@modify_outcomes _ _ _ _ _
              (Manager.__init__ keras_modifiers_with_invalid) [] tt 100%Z None
              None ltac:(repeat constructor))
    as (Hs & _ & _ & H).
  destruct (H (RuntimeError "Invalid callback type") eq_refl) as (Ho & _).
  split; [exact Ho|]. split; [reflexivity|exact Hs].
Defined.

(** Called as schedule, early, late, the modifiers append 2, 3 and 1 to
    the model and contribute the callbacks of the early and of the late
    pruning. *)
Lemma modify_threads_model_and_collects_callbacks_witness :
  Manager.returned_value
    (Manager.modify (Manager.__init__ keras_modifiers) [] tt 100 None None)
  = Ok ([2; 3; 1]%nat, tt, ["early"; "log"; "late"]%string)
  /\ Returns.threaded (Manager.sort_by_start_epoch keras_modifiers) [] tt 100
       None None
     = ([2; 3; 1]%nat, tt, ["early"; "log"; "late"]%string).
Proof.
  destruct (@modify_threads_model_and_collects_callbacks _ _ _ _ _
              (Manager.__init__ keras_modifiers) [] tt 100%Z None None
              ltac:(repeat constructor))
    as (H & _).
  split; [reflexivity|]. symmetry. apply H. reflexivity.
Defined.

Lemma modify_again_follows_same_order_witness :
  Manager._modifiers
    (Manager.manager_after
       (Manager.modify
          (Manager.manager_after
             (Manager.modify (Manager.__init__ keras_modifiers) [] tt 100 None
                None))
          [] tt 100 None None))
  = Manager._modifiers
      (Manager.manager_after
         (Manager.modify (Manager.__init__ keras_modifiers) [] tt 100 None None)).
Proof.
  destruct (@modify_again_follows_same_order _ _ _ _ _
              (Manager.__init__ keras_modifiers) [] [] tt tt 100%Z 100%Z
              None None None None ltac:(repeat constructor))
    as (_ & H & _).
  exact H.
Defined.

End FurtherCases.


(** * The deduplication of [log_update] *)

Section DeduplicationFacts.

Import KS.

Context {E : Env}.

(** X18.  [log_update] logs a sparsity once.  After a [log_update]
    call that returns, on a modifier whose applied sparsity is unset or
    a number, [last_logged_sparsity] no longer differs from
    [applied_sparsity], and the next [log_update] (with no [update] in
    between) that gets past [super().log_update] logs nothing and
    changes neither sparsity. *)
Theorem log_update_logs_a_sparsity_once (m : GradualKSModifier)
    (md md' : Module_) (opt opt' : Optimizer) (epoch epoch' : float)
    (spe spe' : Z) (m' : GradualKSModifier) (evs : list log_scalar)
    (b' : base) :
  (forall x, _applied_sparsity m = Some x -> is_number x = true) ->
  log_update m md opt epoch spe = (Returned m', evs) ->
  super_log_update (super m') md' opt' epoch' spe' = Returned b' ->
  ne_opt_float (_applied_sparsity m') (_last_logged_sparsity m') = false
  /\ log_update m' md' opt' epoch' spe' = (Returned (assign_super m' b'), [])
  /\ _applied_sparsity m' = _applied_sparsity m.
Proof.
  intros Hnum Hlog Hs'.
  assert (Hm : ne_opt_float (_applied_sparsity m') (_last_logged_sparsity m')
               = false
               /\ _applied_sparsity m' = _applied_sparsity m).
  { unfold log_update in Hlog.
    destruct (super_log_update (super m) md opt epoch spe) as [b|e b];
      [|discriminate]. simpl in Hlog.
    destruct (ne_opt_float (_applied_sparsity m) (_last_logged_sparsity m))
      eqn:Hne.
    - destruct (_log_sparsity _ _ epoch spe); [|discriminate].
      injection Hlog as <- _. simpl. split; [|reflexivity].
      destruct (_applied_sparsity m) as [x|]; [|reflexivity]. simpl.
      specialize (Hnum x eq_refl). unfold is_number in Hnum.
      rewrite Hnum. reflexivity.
    - injection Hlog as <- _. simpl. auto. }
  destruct Hm as (Hne & Ha). split; [exact Hne|]. split; [|exact Ha].
  unfold log_update. rewrite Hs'. simpl. rewrite Hne. reflexivity.
Qed.

End DeduplicationFacts.

Section LastCases.

Import KS Sample.

Set Warnings "-inexact-float".

(** The second of two [log_update] calls at epoch 5 logs nothing. *)
Lemma log_update_logs_a_sparsity_once_witness :
  snd (log_update (state_of (fst (log_update halfway model tt 5 100)))
         model tt 5 100) = [].
Proof.
  pose proof (@log_update_logs_a_sparsity_once env halfway model model tt tt
                5%float 5%float 100%Z 100%Z
                (state_of (fst (log_update halfway model tt 5 100)))
                (snd (log_update halfway model tt 5 100))
                (super (state_of (fst (log_update halfway model tt 5 100)))))
    as H.
  destruct H as (_ & H & _).
  - intros x Hx. injection Hx as <-. reflexivity.
  - reflexivity.
  - reflexivity.
  - rewrite H. reflexivity.
Defined.

End LastCases.
